(** * Selection Mitra backend: the per-client sliding-window rate limiter
      and the /chat relay handler of [app.py], embedded and verified. *)

From Stdlib Require Import ZArith QArith Lqa List Bool Ascii String.
From stdpp Require Import base option list gmap.
Import ListNotations.

#[local] Set Warnings "-register-all".

(** ** Python values

    A Python [str] is a sequence of Unicode code points; the timestamps
    returned by [time.time()] are idealised as exact rationals (no
    floating-point rounding). *)

Abbreviation pystr := (list N).

Definition pystr_of_string (s : string) : pystr :=
  map N_of_ascii (list_ascii_of_string s).

Notation "'py' s" := (pystr_of_string s%string) (at level 9, s at level 0, only parsing).

(** ** Configuration (app.py, lines 15-16) *)

Definition RATE_LIMIT_WINDOW : Q := 60 * 60.
Definition RATE_LIMIT_MAX : nat := 120.

(** ** The rate-limit store (app.py, line 24)

    [request_log = defaultdict(lambda: deque())]: a map from client address
    to a deque of timestamps, oldest first.  Reading a missing key yields
    (and stores) an empty deque. *)

Abbreviation store := (gmap (list N) (list Q)).

Definition request_log : store := ∅.

Definition window (log : store) (ip : pystr) : list Q :=
  default [] (log !! ip).

(** What a Python call produces: a value, or a raised exception (an
    instance of [Exception], with its type name and its [str()]). *)

Record exn := Exn { exn_type : pystr; exn_str : pystr }.

Inductive pyresult (A : Type) :=
| Ret (a : A)
| Raise (e : exn).
Arguments Ret {A} a.
Arguments Raise {A} e.

Definition IndexError (msg : string) : exn := Exn (py "IndexError") (py msg).
Definition TypeError (msg : string) : exn := Exn (py "TypeError") (py msg).
Definition AttributeError (msg : string) : exn := Exn (py "AttributeError") (py msg).
Definition KeyError (msg : string) : exn := Exn (py "KeyError") (py msg).

(** ** check_rate_limit (app.py, lines 33-42) *)

(** The pair returned by [check_rate_limit]: [(True, None)] or
    [(False, retry_after)]. *)
Inductive decision :=
| Admit
| Deny (retry_after : Q).

(** [while q and q[0] <= now - RATE_LIMIT_WINDOW: q.popleft()] *)
Fixpoint prune (now : Q) (q : list Q) : list Q :=
  match q with
  | [] => []
  | t :: q' =>
      if Qle_bool t (now - RATE_LIMIT_WINDOW) then prune now q' else q
  end.

(** [now] is the reading of [time.time()] taken on entry.  The deque is
    mutated in place, so the pruned window stays in the store on every
    path. *)
Definition check_rate_limit (ip : pystr) (now : Q) (log : store)
  : pyresult decision * store :=
  let q := prune now (window log ip) in
  if (RATE_LIMIT_MAX <=? length q)%nat then
    match q with
    | t0 :: _ => (Ret (Deny (RATE_LIMIT_WINDOW - (now - t0))), <[ip := q]> log)
    | [] => (Raise (IndexError "deque index out of range"), <[ip := q]> log)
    end
  else (Ret Admit, <[ip := q ++ [now]]> log).

(** A sequence of calls [(ip, now)], served one after another. *)
Fixpoint run_checks (calls : list (pystr * Q)) (log : store)
  : list (pyresult decision) * store :=
  match calls with
  | [] => ([], log)
  | (ip, now) :: rest =>
      let '(d, log1) := check_rate_limit ip now log in
      let '(ds, log2) := run_checks rest log1 in
      (d :: ds, log2)
  end.

(** The clock readings of one client's calls, in call order. *)
Fixpoint client_times (ip : pystr) (calls : list (pystr * Q)) : list Q :=
  match calls with
  | [] => []
  | (c, t) :: rest =>
      if decide (c = ip) then t :: client_times ip rest
      else client_times ip rest
  end.

(** The clock readings of one client's admitted calls. *)
Fixpoint admitted_times (ip : pystr) (calls : list (pystr * Q))
    (ds : list (pyresult decision)) : list Q :=
  match calls, ds with
  | (c, t) :: rest, d :: ds' =>
      match d with
      | Ret Admit =>
          if decide (c = ip) then t :: admitted_times ip rest ds'
          else admitted_times ip rest ds'
      | _ => admitted_times ip rest ds'
      end
  | _, _ => []
  end.

Fixpoint nondecreasing (ts : list Q) : bool :=
  match ts with
  | [] => true
  | t :: rest =>
      match rest with
      | [] => true
      | u :: _ => Qle_bool t u && nondecreasing rest
      end
  end.

Definition is_admit (d : pyresult decision) : bool :=
  match d with Ret Admit => true | _ => false end.

Definition is_deny (d : pyresult decision) : bool :=
  match d with Ret (Deny _) => true | _ => false end.

(** A timestamp is live at [now] when the pruning loop would keep it. *)
Definition live (now t : Q) : bool :=
  negb (Qle_bool t (now - RATE_LIMIT_WINDOW)).

(** The shape of a client's window right after a call served at [now]. *)
Definition window_ok (now : Q) (q : list Q) : Prop :=
  Forall (fun t => (now - RATE_LIMIT_WINDOW < t)%Q) q /\
  nondecreasing q = true /\
  length q <= RATE_LIMIT_MAX.

(** What the store holds for a client whose clock never ran backwards:
    an ordered window of at most [RATE_LIMIT_MAX] past clock readings. *)
Definition hist_ok (now : Q) (q : list Q) : Prop :=
  nondecreasing q = true /\
  Forall (fun t => (t <= now)%Q) q /\
  length q <= RATE_LIMIT_MAX.

(** ** Python objects seen by the handler

    Parsed JSON bodies, response dictionaries and the object returned by
    the completion SDK.  A [PDict] is an association list read at the
    first binding of a key; a [PObj] is an instance with the given
    attributes. *)

Inductive pyval :=
| PNone
| PBool (b : bool)
| PInt (z : Z)
| PFloat (x : Q)
| PStr (s : pystr)
| PList (items : list pyval)
| PDict (kvs : list (pystr * pyval))
| PObj (attrs : list (pystr * pyval)).

#[global] Instance pyresult_ret : MRet pyresult := fun _ a => Ret a.
#[global] Instance pyresult_bind : MBind pyresult := fun _ _ f m =>
  match m with
  | Ret a => f a
  | Raise e => Raise e
  end.

Definition pystr_eqb (s1 s2 : pystr) : bool := bool_decide (s1 = s2).

Fixpoint assoc (k : pystr) (kvs : list (pystr * pyval)) : option pyval :=
  match kvs with
  | [] => None
  | (k', v) :: rest => if pystr_eqb k' k then Some v else assoc k rest
  end.

(** Truth value of an object, as tested by [not x] and [x or y]. *)
Definition truthy (v : pyval) : bool :=
  match v with
  | PNone => false
  | PBool b => b
  | PInt z => negb (z =? 0)%Z
  | PFloat x => negb (Qeq_bool x 0)
  | PStr s => negb (pystr_eqb s [])
  | PList items => match items with [] => false | _ => true end
  | PDict kvs => match kvs with [] => false | _ => true end
  | PObj _ => true
  end.

Fixpoint is_prefix (p s : pystr) : bool :=
  match p, s with
  | [], _ => true
  | _ :: _, [] => false
  | a :: p', b :: s' => (a =? b)%N && is_prefix p' s'
  end.

Fixpoint is_substring (p s : pystr) : bool :=
  is_prefix p s ||
  match s with
  | [] => false
  | _ :: s' => is_substring p s'
  end.

Definition str_equals (k : pystr) (v : pyval) : bool :=
  match v with
  | PStr s => pystr_eqb s k
  | _ => false
  end.

(** [k in v] for a string [k]: key membership on a dict, element
    membership on a list, substring search on a string; the other types
    are not iterable. *)
Definition py_contains (k : pystr) (v : pyval) : pyresult bool :=
  match v with
  | PDict kvs => Ret (existsb (fun kv => pystr_eqb (fst kv) k) kvs)
  | PList items => Ret (existsb (str_equals k) items)
  | PStr s => Ret (is_substring k s)
  | PNone => Raise (TypeError "argument of type 'NoneType' is not iterable")
  | PBool _ => Raise (TypeError "argument of type 'bool' is not iterable")
  | PInt _ => Raise (TypeError "argument of type 'int' is not iterable")
  | PFloat _ => Raise (TypeError "argument of type 'float' is not iterable")
  | PObj _ => Raise (TypeError "argument of type 'object' is not iterable")
  end.

(** [v.get(k, dflt)]: only dicts have the method. *)
Definition py_get (v : pyval) (k : pystr) (dflt : pyval) : pyresult pyval :=
  match v with
  | PDict kvs => Ret (default dflt (assoc k kvs))
  | _ => Raise (AttributeError "object has no attribute 'get'")
  end.

(** [v.name] for the attribute names the handler reads ([choices],
    [message], [content], [text]), none of which exists on the built-in
    types. *)
Definition py_getattr (v : pyval) (name : pystr) : pyresult pyval :=
  match v with
  | PObj attrs =>
      match assoc name attrs with
      | Some a => Ret a
      | None => Raise (AttributeError "object has no such attribute")
      end
  | _ => Raise (AttributeError "object has no such attribute")
  end.

(** [getattr(v, name, dflt)] *)
Definition py_getattr_default (v : pyval) (name : pystr) (dflt : pyval) : pyval :=
  match py_getattr v name with
  | Ret a => a
  | Raise _ => dflt
  end.

(** [v[0]] *)
Definition py_index0 (v : pyval) : pyresult pyval :=
  match v with
  | PList items =>
      match items with
      | x :: _ => Ret x
      | [] => Raise (IndexError "list index out of range")
      end
  | PStr s =>
      match s with
      | c :: _ => Ret (PStr [c])
      | [] => Raise (IndexError "string index out of range")
      end
  | PDict kvs => Raise (KeyError "0")
  | _ => Raise (TypeError "object is not subscriptable")
  end.

(** [int(x)] on a float truncates towards zero. *)
Definition py_int (x : Q) : Z := Z.quot (Qnum x) (Zpos (Qden x)).

(** The code points on which [str.isspace] holds. *)
Definition py_isspace (c : N) : bool :=
  ((9 <=? c) && (c <=? 13) || (28 <=? c) && (c <=? 32) ||
   (c =? 133) || (c =? 160) || (c =? 5760) ||
   (8192 <=? c) && (c <=? 8202) || (c =? 8232) || (c =? 8233) ||
   (c =? 8239) || (c =? 8287) || (c =? 12288))%N.

Fixpoint lstrip (s : pystr) : pystr :=
  match s with
  | [] => []
  | c :: s' => if py_isspace c then lstrip s' else s
  end.

Definition rstrip (s : pystr) : pystr := rev (lstrip (rev s)).

(** [s.strip()] *)
Definition strip (s : pystr) : pystr := rstrip (lstrip s).

(** [s.split(",")[0]]: the text before the first comma. *)
Fixpoint first_field (s : pystr) : pystr :=
  match s with
  | [] => []
  | c :: s' => if (c =? 44)%N then [] else c :: first_field s'
  end.

(** Whether [jsonify] can serialise the value. *)
Fixpoint json_serializable (v : pyval) : bool :=
  match v with
  | PList items => forallb json_serializable items
  | PDict kvs => forallb (fun kv => json_serializable (snd kv)) kvs
  | PObj _ => false
  | _ => true
  end.

Definition jsonify (v : pyval) : pyresult pyval :=
  if json_serializable v then Ret v
  else Raise (TypeError "Object is not JSON serializable").

(** ** The HTTP layer *)

(** What the handler reads from Flask's [request]: the value of the
    [X-Forwarded-For] header if present, [remote_addr], and the result
    of [get_json(silent=True)] ([PNone] when there is no parsable JSON
    body). *)
Record request := Request {
  x_forwarded_for : option pystr;
  remote_addr : option pystr;
  get_json : pyval
}.

Record response := Response {
  body : pyval;
  status : Z
}.

(** Keyword arguments of [client.chat.completions.create]. *)
Record completion_args := CompletionArgs {
  arg_model : pystr;
  arg_messages : pyval;
  arg_temperature : Q;
  arg_max_tokens : Z
}.

(** Observable effects of one handler run, oldest first. *)
Inductive event :=
| CallCompletion (args : completion_args)
| Printed (args : list pystr).

Record outcome := Outcome {
  result : pyresult response;
  log_after : store;
  trace : list event
}.

(** ** Helpers (app.py, lines 27-57) *)

Definition ip_from_request (req : request) : pystr :=
  match x_forwarded_for req with
  | Some h => strip (first_field h)
  | None =>
      match remote_addr req with
      | Some a => if pystr_eqb a [] then py "unknown" else a
      | None => py "unknown"
      end
  end.

Definition em_dash : pystr := [8212%N].

Definition build_system_prompt : pystr :=
  py "Tum 'Selection Mitra' ho " ++ em_dash ++
  py " ek friendly aur motivating study helper. " ++
  py "Tum Hindi/English/Hinglish dono me baat kar sakte ho. " ++
  py "Har jawab ko exam-oriented, clear aur short steps me do. " ++
  py "Agar user summary maange (e.g., '5 line summary'), to concise do. " ++
  py "Agar user puchhe ki books, plan ya tricks, to practical aur ranked suggestions do. " ++
  py "Hamesha polite raho aur exam-focused examples do.".

(** [s.strip()]; the annotation [s: str] is not enforced, and only
    strings have the method. *)
Definition sanitize_text (s : pyval) : pyresult pystr :=
  match s with
  | PStr t => Ret (strip t)
  | _ => Raise (AttributeError "object has no attribute 'strip'")
  end.

Definition parsing_error_reply : pystr :=
  py "Maaf " ++ em_dash ++ py " response parsing error.".

(** ** The /chat route (app.py, lines 64-113) *)

Section Chat.

(** [MODEL] is read from the environment; [create] stands for
    [client.chat.completions.create], an external service that either
    returns a response object or raises. *)
Variable MODEL : pystr.
Variable create : completion_args -> pyresult pyval.

Definition respond (d : pyval) (code : Z) : pyresult response :=
  b ← jsonify d; Ret (Response b code).

(** [resp.choices[0]] *)
Definition first_choice (resp : pyval) : pyresult pyval :=
  choices ← py_getattr resp (py "choices");
  py_index0 choices.

(** [resp.choices[0].message.content] *)
Definition extract_content (resp : pyval) : pyresult pyval :=
  choice ← first_choice resp;
  message ← py_getattr choice (py "message");
  py_getattr message (py "content").

(** [getattr(resp.choices[0], "text", "") or "Maaf ..."] *)
Definition extract_fallback (resp : pyval) : pyresult pyval :=
  choice ← first_choice resp;
  let text := py_getattr_default choice (py "text") (PStr []) in
  Ret (if truthy text then text else PStr parsing_error_reply).

(** The inner [try ... except Exception]. *)
Definition reply_text (resp : pyval) : pyresult pyval :=
  match extract_content resp with
  | Ret v => Ret v
  | Raise _ => extract_fallback resp
  end.

(** The [except Exception as e] clause of the outer [try]. *)
Definition on_openai_error (e : exn) : pyresult response * list event :=
  (respond (PDict [(py "error", PStr (py "openai_error"));
                   (py "message", PStr (exn_str e))]) 500,
   [Printed [py "OpenAI error:"; exn_str e]]).

(** The two-message conversation and the keyword arguments passed to
    the completion call (lines 80-96). *)
Definition completion_request (user_message : pystr) : completion_args :=
  let system_prompt := build_system_prompt in
  let messages :=
    PList [PDict [(py "role", PStr (py "system"));
                  (py "content", PStr system_prompt)];
           PDict [(py "role", PStr (py "user"));
                  (py "content", PStr user_message)]] in
  CompletionArgs MODEL messages (2 # 10) 800.

(** The outer [try] block: the completion call, the extraction of the
    reply and the success response. *)
Definition relay (user_message : pystr) : pyresult response * list event :=
  let args := completion_request user_message in
  let attempt :=
    resp ← create args;
    text ← reply_text resp;
    respond (PDict [(py "reply", text)]) 200 in
  match attempt with
  | Ret r => (Ret r, [CallCompletion args])
  | Raise e =>
      let '(r, evs) := on_openai_error e in
      (r, CallCompletion args :: evs)
  end.

(** [not data or "message" not in data] *)
Definition lacks_message (data : pyval) : pyresult bool :=
  if negb (truthy data) then Ret true
  else found ← py_contains (py "message") data; Ret (negb found).

(** [now] is the clock reading taken by [check_rate_limit]; [log] is
    the content of [request_log] when the handler starts. *)
Definition chat (req : request) (now : Q) (log : store) : outcome :=
  let ip := ip_from_request req in
  let '(allowed, log1) := check_rate_limit ip now log in
  match allowed with
  | Raise e => Outcome (Raise e) log1 []
  | Ret (Deny retry_after) =>
      Outcome
        (respond (PDict [(py "error", PStr (py "rate_limited"));
                         (py "retry_after_seconds", PInt (py_int retry_after))])
                 429)
        log1 []
  | Ret Admit =>
      let data := get_json req in
      match lacks_message data with
      | Raise e => Outcome (Raise e) log1 []
      | Ret true =>
          Outcome
            (respond (PDict [(py "error", PStr (py "invalid_request"));
                             (py "message",
                              PStr (py "Provide JSON body with 'message' field."))])
                     400)
            log1 []
      | Ret false =>
          match (m ← py_get data (py "message") (PStr []); sanitize_text m) with
          | Raise e => Outcome (Raise e) log1 []
          | Ret user_message =>
              if negb (truthy (PStr user_message)) then
                Outcome
                  (respond (PDict [(py "error", PStr (py "invalid_request"));
                                   (py "message", PStr (py "Empty message."))])
                           400)
                  log1 []
              else
                let '(r, evs) := relay user_message in
                Outcome r log1 evs
          end
      end
  end.

End Chat.

(** The handler's answer when it returns [jsonify(d), code]. *)
Definition sends (o : outcome) (d : pyval) (code : Z) : Prop :=
  result o = Ret (Response d code).

Definition calls_made (o : outcome) : list completion_args :=
  omap (fun ev => match ev with CallCompletion a => Some a | Printed _ => None end)
       (trace o).

(** The trimmed [message] text of a body that is a JSON object with a
    string under the key [message]. *)
Definition message_of (data : pyval) : option pystr :=
  match data with
  | PDict kvs =>
      match assoc (py "message") kvs with
      | Some (PStr s) => Some (strip s)
      | _ => None
      end
  | _ => None
  end.

(** A body the handler forwards: its message text is not blank. *)
Definition well_formed (data : pyval) : bool :=
  match message_of data with
  | Some (_ :: _) => true
  | _ => false
  end.

(** A body the handler rejects: no (or an empty) parsed body, a JSON
    object without a [message] key, or a [message] string that is blank. *)
Definition invalid_body (data : pyval) : bool :=
  negb (truthy data) ||
  match data with
  | PDict kvs =>
      match assoc (py "message") kvs with
      | None => true
      | Some (PStr s) => pystr_eqb (strip s) []
      | Some _ => false
      end
  | _ => false
  end.

Definition invalid_request (msg : string) : pyval :=
  PDict [(py "error", PStr (py "invalid_request")); (py "message", PStr (py msg))].

Definition openai_error (e : exn) : pyval :=
  PDict [(py "error", PStr (py "openai_error")); (py "message", PStr (exn_str e))].

(** ** Handlers running concurrently

    Flask serves each request on its own thread and [check_rate_limit]
    takes no lock, so the statements of two calls may interleave.  A
    thread is a call of [check_rate_limit] in progress: its arguments and
    the statement it executes next.  Every step below is one statement of
    lines 35-42 applied to the shared store; [q] is a reference to the
    deque stored under [ip], so each step reads the deque as it is then. *)

Inductive pc :=
| AtLookup                          (* line 35: q = request_log[ip] *)
| AtLoopTest                        (* line 37: while q and q[0] <= ... *)
| AtPopleft                         (* line 38: q.popleft() *)
| AtLenTest                         (* line 39: if len(q) >= RATE_LIMIT_MAX *)
| AtDeny                            (* line 40: return False, ... q[0] ... *)
| AtAppend                          (* lines 41-42: q.append(now); return *)
| Returned (d : pyresult decision).

Record thread := Thread {
  th_ip : pystr;
  th_now : Q;
  th_pc : pc
}.

Definition at_pc (t : thread) (p : pc) : thread :=
  Thread (th_ip t) (th_now t) p.

(** One statement of thread [t] on the shared store. *)
Definition step_thread (t : thread) (log : store) : thread * store :=
  let ip := th_ip t in
  let now := th_now t in
  let q := window log ip in
  match th_pc t with
  | AtLookup => (at_pc t AtLoopTest, <[ip := q]> log)
  | AtLoopTest =>
      match q with
      | t0 :: _ =>
          if Qle_bool t0 (now - RATE_LIMIT_WINDOW)
          then (at_pc t AtPopleft, log)
          else (at_pc t AtLenTest, log)
      | [] => (at_pc t AtLenTest, log)
      end
  | AtPopleft =>
      match q with
      | _ :: q' => (at_pc t AtLoopTest, <[ip := q']> log)
      | [] => (at_pc t (Returned (Raise (IndexError "pop from an empty deque"))), log)
      end
  | AtLenTest =>
      if (RATE_LIMIT_MAX <=? length q)%nat
      then (at_pc t AtDeny, log)
      else (at_pc t AtAppend, log)
  | AtDeny =>
      match q with
      | t0 :: _ =>
          (at_pc t (Returned (Ret (Deny (RATE_LIMIT_WINDOW - (now - t0))))), log)
      | [] =>
          (at_pc t (Returned (Raise (IndexError "deque index out of range"))), log)
      end
  | AtAppend => (at_pc t (Returned (Ret Admit)), <[ip := q ++ [now]]> log)
  | Returned _ => (t, log)
  end.

(** A call that is never interrupted: its statements run back to back. *)
Fixpoint run_alone (fuel : nat) (t : thread) (log : store) : thread * store :=
  match fuel with
  | O => (t, log)
  | S fuel' =>
      let '(t', log') := step_thread t log in
      run_alone fuel' t' log'
  end.

(** The threads of the process and the store they share; a schedule
    names, step by step, the thread that runs next. *)
Definition config : Type := list thread * store.

Definition step_config (i : nat) (cfg : config) : config :=
  let '(threads, log) := cfg in
  match threads !! i with
  | Some t =>
      let '(t', log') := step_thread t log in
      (<[i := t']> threads, log')
  | None => cfg
  end.

Definition exec (schedule : list nat) (cfg : config) : config :=
  fold_left (fun c i => step_config i c) schedule cfg.

Definition returned (t : thread) : option (pyresult decision) :=
  match th_pc t with
  | Returned d => Some d
  | _ => None
  end.

Definition admits (threads : list thread) : nat :=
  length (List.filter
            (fun t => match returned t with Some d => is_admit d | None => false end)
            threads).

Definition denials (threads : list thread) : nat :=
  length (List.filter
            (fun t => match returned t with Some d => is_deny d | None => false end)
            threads).

(** [n] requests of one client arriving together at clock reading [now]. *)
Definition spawn (n : nat) (ip : pystr) (now : Q) : list thread :=
  replicate n (Thread ip now AtLookup).

(** Every thread runs up to its [append] before any thread appends. *)
Definition test_then_append (n : nat) : list nat :=
  flat_map (fun i => [i; i; i]) (seq 0 n) ++ seq 0 n.

(** One thread after another, each to completion (four statements when
    nothing is pruned). *)
Definition one_at_a_time (n : nat) : list nat :=
  flat_map (fun i => [i; i; i; i]) (seq 0 n).

(** All the clock readings lie less than one window after the first. *)
Definition within_one_window (ts : list Q) : bool :=
  match ts with
  | [] => true
  | t0 :: _ => forallb (fun u => live u t0) ts
  end.

(** ** Bodies on which the handler fails

    A body makes the handler raise when it passes the truth test but is
    not a container ([true], a non-zero number), when it is a list or a
    string that contains ["message"] (there is no [get] method), or when
    it is an object whose [message] is not a string (no [strip]). *)
Definition crashing_body (data : pyval) : bool :=
  match data with
  | PNone => false
  | PBool b => b
  | PInt z => negb (z =? 0)%Z
  | PFloat x => negb (Qeq_bool x 0)
  | PStr s => is_substring (py "message") s
  | PList items => existsb (str_equals (py "message")) items
  | PDict kvs =>
      match assoc (py "message") kvs with
      | Some (PStr _) => false
      | Some _ => true
      | None => false
      end
  | PObj _ => true
  end.

(** ** Requests served one after another *)

Section Serve.

Variable MODEL : pystr.
Variable create : completion_args -> pyresult pyval.

(** Each request comes with the clock reading of its rate-limit check;
    the store left by one handler run is the store the next one finds. *)
Fixpoint serve (reqs : list (request * Q)) (log : store)
  : list outcome * store :=
  match reqs with
  | [] => ([], log)
  | (req, now) :: rest =>
      let o := chat MODEL create req now log in
      let '(os, log') := serve rest (log_after o) in
      (o :: os, log')
  end.

End Serve.

(** The rate-limit calls made by a sequence of requests. *)
Definition checks_of (reqs : list (request * Q)) : list (pystr * Q) :=
  map (fun rq => (ip_from_request (fst rq), snd rq)) reqs.

(** The clock readings of the requests of client [ip] for which the
    completion service was called. *)
Fixpoint completion_times (ip : pystr) (reqs : list (request * Q))
    (os : list outcome) : list Q :=
  match reqs, os with
  | (req, now) :: rest, o :: os' =>
      match calls_made o with
      | [] => completion_times ip rest os'
      | _ :: _ =>
          if decide (ip_from_request req = ip)
          then now :: completion_times ip rest os'
          else completion_times ip rest os'
      end
  | _, _ => []
  end.

(** ** Bodies the handler rejects *)

(** The body fails the test [not data or "message" not in data]. *)
Definition missing_message (data : pyval) : bool :=
  match data with
  | PDict kvs =>
      match assoc (py "message") kvs with
      | None => true
      | Some _ => false
      end
  | PList items => negb (existsb (str_equals (py "message")) items)
  | PStr s => negb (is_substring (py "message") s)
  | _ => negb (truthy data)
  end.

(** The body is an object whose [message] is a string of whitespace only. *)
Definition blank_message (data : pyval) : bool :=
  match data with
  | PDict kvs =>
      match assoc (py "message") kvs with
      | Some (PStr s) => forallb py_isspace s
      | _ => false
      end
  | _ => false
  end.

(** ** Threads of other clients *)

(** No thread of the list serves client [b]. *)
Definition none_of (b : pystr) (threads : list thread) : bool :=
  forallb (fun t => negb (pystr_eqb (th_ip t) b)) threads.

(** * Properties of the rate limiter *)

Lemma RATE_LIMIT_WINDOW_eq : RATE_LIMIT_WINDOW == 3600.
Proof. reflexivity. Qed.

Lemma Qle_bool_false (x y : Q) : Qle_bool x y = false -> (y < x)%Q.
Proof.
  intros H. apply Qnot_le_lt. intros Hle.
  apply Qle_bool_iff in Hle. congruence.
Qed.

(** The loop removes a prefix of expired timestamps ... *)
Lemma prune_split (now : Q) (q : list Q) :
  exists removed,
    q = removed ++ prune now q /\
    Forall (fun t => (t <= now - RATE_LIMIT_WINDOW)%Q) removed.
Proof.
  induction q as [|t q IH]; simpl.
  - exists []. split; [reflexivity | constructor].
  - destruct (Qle_bool t (now - RATE_LIMIT_WINDOW)) eqn:E.
    + destruct IH as (r & Hq & Hr). exists (t :: r). split.
      * simpl. f_equal. exact Hq.
      * constructor; [now apply Qle_bool_iff | exact Hr].
    + exists []. split; [reflexivity | constructor].
Qed.

(** ... and stops at the first timestamp that is still inside the window. *)
Lemma prune_head (now : Q) (q : list Q) :
  match prune now q with
  | [] => True
  | t :: _ => (now - RATE_LIMIT_WINDOW < t)%Q
  end.
Proof.
  induction q as [|t q IH]; simpl; [exact I|].
  destruct (Qle_bool t (now - RATE_LIMIT_WINDOW)) eqn:E; [exact IH|].
  now apply Qle_bool_false.
Qed.

Lemma prune_length (now : Q) (q : list Q) : length (prune now q) <= length q.
Proof.
  induction q as [|t q IH]; simpl; [lia|].
  destruct (Qle_bool t (now - RATE_LIMIT_WINDOW)); simpl; lia.
Qed.

(** C1: [check_rate_limit] first drops from the front of the client's
    window the expired timestamps (those [t <= now - RATE_LIMIT_WINDOW],
    up to the first live one); if the pruned window holds at least
    [RATE_LIMIT_MAX] entries it answers Deny with
    [RATE_LIMIT_WINDOW - (now - oldest)] and stores the pruned window
    unchanged, otherwise it stores the pruned window with [now] appended
    and answers Admit. *)
Theorem check_rate_limit_spec (ip : pystr) (now : Q) (log : store) :
  exists removed pruned,
    window log ip = removed ++ pruned /\
    Forall (fun t => (t <= now - RATE_LIMIT_WINDOW)%Q) removed /\
    match pruned with
    | [] => True
    | t :: _ => (now - RATE_LIMIT_WINDOW < t)%Q
    end /\
    ((RATE_LIMIT_MAX <= length pruned /\
      exists oldest rest,
        pruned = oldest :: rest /\
        check_rate_limit ip now log =
          (Ret (Deny (RATE_LIMIT_WINDOW - (now - oldest))),
           <[ip := pruned]> log))
     \/
     (length pruned < RATE_LIMIT_MAX /\
      check_rate_limit ip now log =
        (Ret Admit, <[ip := pruned ++ [now]]> log))).
Proof.
  destruct (prune_split now (window log ip)) as (removed & Hsplit & Hrem).
  exists removed, (prune now (window log ip)).
  split; [exact Hsplit|]. split; [exact Hrem|].
  split; [apply prune_head|].
  unfold check_rate_limit.
  destruct (RATE_LIMIT_MAX <=? length (prune now (window log ip)))%nat eqn:E.
  - apply Nat.leb_le in E. left. split; [exact E|].
    destruct (prune now (window log ip)) as [|t0 rest] eqn:Hp.
    + unfold RATE_LIMIT_MAX in E. simpl in E. lia.
    + exists t0, rest. split; reflexivity.
  - apply Nat.leb_gt in E. right. split; [exact E | reflexivity].
Qed.

(** ** The effect of one call on the store *)

Lemma check_window_self (ip : pystr) (now : Q) (log : store) :
  window (snd (check_rate_limit ip now log)) ip =
    let q := prune now (window log ip) in
    if (RATE_LIMIT_MAX <=? length q)%nat then q else q ++ [now].
Proof.
  unfold check_rate_limit. cbv zeta.
  destruct (RATE_LIMIT_MAX <=? _)%nat.
  - destruct (prune now (window log ip)); simpl;
      unfold window; now rewrite lookup_insert_eq.
  - simpl. unfold window. now rewrite lookup_insert_eq.
Qed.

Lemma check_lookup_other (a b : pystr) (now : Q) (log : store) :
  a <> b -> snd (check_rate_limit a now log) !! b = log !! b.
Proof.
  intros Hne. unfold check_rate_limit. cbv zeta.
  destruct (RATE_LIMIT_MAX <=? _)%nat.
  - destruct (prune now (window log a)); simpl; now rewrite lookup_insert_ne.
  - simpl. now rewrite lookup_insert_ne.
Qed.

Lemma check_window_other (a b : pystr) (now : Q) (log : store) :
  a <> b -> window (snd (check_rate_limit a now log)) b = window log b.
Proof. intros Hne. unfold window. now rewrite check_lookup_other. Qed.

Lemma check_decision_window (ip : pystr) (now : Q) (log log' : store) :
  window log ip = window log' ip ->
  fst (check_rate_limit ip now log) = fst (check_rate_limit ip now log').
Proof.
  intros Hw. unfold check_rate_limit. rewrite Hw. cbv zeta.
  destruct (RATE_LIMIT_MAX <=? _)%nat; [|reflexivity].
  destruct (prune now (window log' ip)); reflexivity.
Qed.

(** "Error conditions: none": the [q[0]] of the Deny branch is only read
    on a window of at least [RATE_LIMIT_MAX] > 0 entries. *)
Lemma check_rate_limit_decides (ip : pystr) (now : Q) (log : store) :
  exists d, fst (check_rate_limit ip now log) = Ret d.
Proof.
  unfold check_rate_limit. cbv zeta.
  destruct (RATE_LIMIT_MAX <=? _)%nat eqn:E; [|now exists Admit].
  destruct (prune now (window log ip)) as [|t0 rest].
  - apply Nat.leb_le in E. unfold RATE_LIMIT_MAX in E. simpl in E. lia.
  - now eexists.
Qed.

Lemma run_checks_cons (ip : pystr) (now : Q) (rest : list (pystr * Q)) (log : store) :
  run_checks ((ip, now) :: rest) log =
    (fst (check_rate_limit ip now log)
       :: fst (run_checks rest (snd (check_rate_limit ip now log))),
     snd (run_checks rest (snd (check_rate_limit ip now log)))).
Proof.
  simpl. destruct (check_rate_limit ip now log) as [d log1]. simpl.
  destruct (run_checks rest log1); reflexivity.
Qed.

Lemma run_checks_app (xs ys : list (pystr * Q)) (log : store) :
  run_checks (xs ++ ys) log =
    (fst (run_checks xs log) ++ fst (run_checks ys (snd (run_checks xs log))),
     snd (run_checks ys (snd (run_checks xs log)))).
Proof.
  revert log. induction xs as [|[ip now] xs IH]; intros log.
  - simpl. now destruct (run_checks ys log).
  - rewrite <- app_comm_cons. rewrite !run_checks_cons. rewrite IH. reflexivity.
Qed.

(** ** Ordered windows *)

Lemma nondecreasing_cons (t : Q) (q : list Q) :
  nondecreasing (t :: q) = true <->
  Forall (fun u => (t <= u)%Q) q /\ nondecreasing q = true.
Proof.
  revert t. induction q as [|u q IH]; intros t.
  - simpl. split; [intros _; split; [constructor | reflexivity] | reflexivity].
  - change (nondecreasing (t :: u :: q))
      with (Qle_bool t u && nondecreasing (u :: q)).
    rewrite andb_true_iff, Qle_bool_iff. split.
    + intros [Htu Hs]. split; [|exact Hs].
      constructor; [exact Htu|].
      apply IH in Hs. destruct Hs as [Hall _].
      eapply Forall_impl; [exact Hall|].
      intros x Hx. simpl in Hx. eapply Qle_trans; eassumption.
    + intros [Hall Hs]. split; [|exact Hs].
      now inversion Hall.
Qed.

Lemma nondecreasing_snoc (q : list Q) (now : Q) :
  nondecreasing q = true ->
  Forall (fun t => (t <= now)%Q) q ->
  nondecreasing (q ++ [now]) = true.
Proof.
  induction q as [|t q IH]; intros Hs Hall; [reflexivity|].
  rewrite <- app_comm_cons. apply nondecreasing_cons.
  apply nondecreasing_cons in Hs. destruct Hs as [Hle Hs].
  inversion Hall as [|? ? Ht Hall']; subst.
  split; [|now apply IH].
  apply Forall_app. split; [exact Hle | now repeat constructor].
Qed.

Lemma nondecreasing_app_inv (xs ys : list Q) :
  nondecreasing (xs ++ ys) = true ->
  nondecreasing xs = true /\ nondecreasing ys = true /\
  Forall (fun x => Forall (fun y => (x <= y)%Q) ys) xs.
Proof.
  induction xs as [|x xs IH]; intros Hs.
  - simpl in Hs. repeat split; [exact Hs | constructor].
  - rewrite <- app_comm_cons in Hs. apply nondecreasing_cons in Hs.
    destruct Hs as [Hle Hs]. apply IH in Hs. destruct Hs as (Hx & Hy & Hxy).
    apply Forall_app in Hle. destruct Hle as [Hlx Hly].
    split; [now apply nondecreasing_cons|]. split; [exact Hy|].
    constructor; assumption.
Qed.

Lemma prune_nondecreasing (now : Q) (q : list Q) :
  nondecreasing q = true -> nondecreasing (prune now q) = true.
Proof.
  induction q as [|t q IH]; intros Hs; [reflexivity|].
  simpl. destruct (Qle_bool t (now - RATE_LIMIT_WINDOW)); [|exact Hs].
  apply IH. now apply nondecreasing_cons in Hs.
Qed.

Lemma prune_Forall (P : Q -> Prop) (now : Q) (q : list Q) :
  Forall P q -> Forall P (prune now q).
Proof.
  induction q as [|t q IH]; intros Hall; [constructor|].
  simpl. destruct (Qle_bool t (now - RATE_LIMIT_WINDOW)); [|exact Hall].
  apply IH. now inversion Hall.
Qed.

(** After pruning an ordered window, every entry is inside the window. *)
Lemma prune_all_live (now : Q) (q : list Q) :
  nondecreasing q = true ->
  Forall (fun t => (now - RATE_LIMIT_WINDOW < t)%Q) (prune now q).
Proof.
  intros Hs. apply (prune_nondecreasing now) in Hs.
  pose proof (prune_head now q) as Hh.
  destruct (prune now q) as [|t rest]; [constructor|].
  apply nondecreasing_cons in Hs. destruct Hs as [Hle _].
  constructor; [exact Hh|].
  eapply Forall_impl; [exact Hle|].
  intros u Hu. simpl in Hu. eapply Qlt_le_trans; eassumption.
Qed.

(** On an ordered window the loop removes exactly the expired entries. *)
Lemma prune_ordered (now : Q) (q : list Q) :
  nondecreasing q = true -> prune now q = List.filter (live now) q.
Proof.
  induction q as [|t q IH]; intros Hs; [reflexivity|].
  pose proof Hs as Hs'. apply nondecreasing_cons in Hs'.
  destruct Hs' as [Hle Hq]. simpl. unfold live at 1.
  destruct (Qle_bool t (now - RATE_LIMIT_WINDOW)) eqn:E; cbn [negb].
  - now apply IH.
  - f_equal. symmetry. apply forallb_filter_id. apply forallb_forall.
    intros u Hu. apply Qle_bool_false in E.
    rewrite Forall_forall in Hle. apply list_elem_of_In in Hu.
    specialize (Hle u Hu). simpl in Hle.
    unfold live. apply negb_true_iff.
    destruct (Qle_bool u (now - RATE_LIMIT_WINDOW)) eqn:Eu; [|reflexivity].
    apply Qle_bool_iff in Eu. lra.
Qed.

(** ** The window invariant *)

Lemma hist_ok_mono (lo now : Q) (q : list Q) :
  (lo <= now)%Q -> hist_ok lo q -> hist_ok now q.
Proof.
  intros Hle (Hs & Hall & Hlen). repeat split; try assumption.
  eapply Forall_impl; [exact Hall|].
  intros t Ht. simpl in Ht. eapply Qle_trans; eassumption.
Qed.

Lemma hist_ok_nil (now : Q) : hist_ok now [].
Proof. repeat split; [constructor | simpl; lia]. Qed.

Lemma check_step_inv (ip : pystr) (now : Q) (log : store) :
  hist_ok now (window log ip) ->
  window_ok now (window (snd (check_rate_limit ip now log)) ip) /\
  hist_ok now (window (snd (check_rate_limit ip now log)) ip).
Proof.
  intros (Hs & Hall & Hlen).
  rewrite check_window_self. cbv zeta.
  pose proof (prune_all_live now _ Hs) as Hlive.
  pose proof (prune_nondecreasing now _ Hs) as Hps.
  pose proof (prune_Forall _ now _ Hall) as Hpall.
  pose proof (prune_length now (window log ip)) as Hpl.
  destruct (RATE_LIMIT_MAX <=? length (prune now (window log ip)))%nat eqn:E.
  - repeat split; try assumption; lia.
  - apply Nat.leb_gt in E.
    assert (Hq : (now - RATE_LIMIT_WINDOW < now)%Q).
    { rewrite RATE_LIMIT_WINDOW_eq. lra. }
    repeat split.
    + apply Forall_app. split; [exact Hlive | now repeat constructor].
    + now apply nondecreasing_snoc.
    + rewrite length_app. simpl. lia.
    + now apply nondecreasing_snoc.
    + apply Forall_app. split; [exact Hpall|].
      repeat constructor. apply Qle_refl.
    + rewrite length_app. simpl. lia.
Qed.

Lemma client_times_app (ip : pystr) (xs ys : list (pystr * Q)) :
  client_times ip (xs ++ ys) = client_times ip xs ++ client_times ip ys.
Proof.
  induction xs as [|[c t] xs IH]; [reflexivity|].
  simpl. destruct (decide (c = ip)); simpl; now rewrite IH.
Qed.

Lemma run_checks_hist (calls : list (pystr * Q)) :
  forall (log : store) (ip : pystr) (lo now : Q),
    hist_ok lo (window log ip) ->
    nondecreasing (lo :: client_times ip calls ++ [now]) = true ->
    hist_ok now (window (snd (run_checks calls log)) ip).
Proof.
  induction calls as [|[c t] calls IH]; intros log ip lo now Hh Hs.
  - simpl in *. rewrite andb_true_r in Hs. apply Qle_bool_iff in Hs.
    now apply (hist_ok_mono lo).
  - rewrite run_checks_cons. cbn [snd]. simpl client_times in Hs.
    destruct (decide (c = ip)) as [->|Hne].
    + rewrite <- app_comm_cons in Hs.
      apply nondecreasing_cons in Hs. destruct Hs as [Hle Hs].
      inversion Hle as [|? ? Hlt _]; subst.
      apply (IH _ _ t); [|exact Hs].
      apply check_step_inv. now apply (hist_ok_mono lo).
    + apply (IH _ _ lo); [|exact Hs].
      now rewrite check_window_other.
Qed.

Lemma run_checks_fresh_hist (calls : list (pystr * Q)) (ip : pystr) (now : Q) :
  nondecreasing (client_times ip calls ++ [now]) = true ->
  hist_ok now (window (snd (run_checks calls request_log)) ip).
Proof.
  intros Hs.
  assert (Hnil : window request_log ip = []) by reflexivity.
  destruct (client_times ip calls ++ [now]) as [|t0 ts] eqn:Ht.
  { now destruct (client_times ip calls). }
  apply (run_checks_hist calls _ _ t0).
  - rewrite Hnil. apply hist_ok_nil.
  - rewrite Ht. apply nondecreasing_cons. split; [|exact Hs].
    apply nondecreasing_cons in Hs. destruct Hs as [Hle _].
    constructor; [apply Qle_refl | exact Hle].
Qed.

(** C3: with a clock that never runs backwards for the client, right
    after every call [check(ip, now)] each timestamp of the client's
    window is strictly greater than [now - RATE_LIMIT_WINDOW], the
    timestamps are in non-decreasing order, and there are at most
    [RATE_LIMIT_MAX] of them. *)
Theorem window_invariant (calls : list (pystr * Q)) (ip : pystr) (now : Q) :
  nondecreasing (client_times ip (calls ++ [(ip, now)])) = true ->
  window_ok now
    (window (snd (run_checks (calls ++ [(ip, now)]) request_log)) ip).
Proof.
  intros Hs. rewrite client_times_app in Hs. simpl in Hs.
  destruct (decide (ip = ip)) as [_|Hne]; [|contradiction].
  rewrite run_checks_app. cbn [snd]. rewrite run_checks_cons. cbn [snd].
  simpl run_checks. cbn [snd].
  apply check_step_inv. now apply run_checks_fresh_hist.
Qed.

Lemma window_invariant_witness :
  window_ok 3700
    (window (snd (run_checks ([(py "10.0.0.1", 5%Q); (py "10.0.0.2", 1%Q);
                               (py "10.0.0.1", 7%Q)] ++ [(py "10.0.0.1", 3700%Q)])
                             request_log)) (py "10.0.0.1")).
Proof. apply window_invariant. vm_compute. reflexivity. Defined.

(** ** Exhausting the quota *)

Lemma check_cases (ip : pystr) (now : Q) (log : store) :
  (fst (check_rate_limit ip now log) = Ret Admit /\
   length (prune now (window log ip)) < RATE_LIMIT_MAX /\
   window (snd (check_rate_limit ip now log)) ip =
     prune now (window log ip) ++ [now])
  \/
  (exists r, fst (check_rate_limit ip now log) = Ret (Deny r) /\
   RATE_LIMIT_MAX <= length (prune now (window log ip)) /\
   window (snd (check_rate_limit ip now log)) ip =
     prune now (window log ip)).
Proof.
  rewrite check_window_self. unfold check_rate_limit. cbv zeta.
  destruct (RATE_LIMIT_MAX <=? length (prune now (window log ip)))%nat eqn:E.
  - right. apply Nat.leb_le in E.
    destruct (prune now (window log ip)) as [|t0 rest].
    + unfold RATE_LIMIT_MAX in E. simpl in E. lia.
    + eexists. repeat split. exact E.
  - left. apply Nat.leb_gt in E. repeat split. exact E.
Qed.

Lemma live_true (now t : Q) :
  live now t = true <-> (now - RATE_LIMIT_WINDOW < t)%Q.
Proof.
  unfold live. rewrite negb_true_iff. split.
  - apply Qle_bool_false.
  - intros Hlt. destruct (Qle_bool t (now - RATE_LIMIT_WINDOW)) eqn:E; [|reflexivity].
    apply Qle_bool_iff in E. lra.
Qed.

Lemma live_earlier (c now t : Q) :
  (c <= now)%Q -> live now t = true -> live c t = true.
Proof. rewrite !live_true. intros. lra. Qed.

(** A call at [c <= now] never removes a timestamp that is live at [now]. *)
Lemma prune_filter_live (c now : Q) (q : list Q) :
  (c <= now)%Q ->
  List.filter (live now) (prune c q) = List.filter (live now) q.
Proof.
  intros Hle. induction q as [|t q IH]; [reflexivity|].
  simpl prune. destruct (Qle_bool t (c - RATE_LIMIT_WINDOW)) eqn:E; [|reflexivity].
  rewrite IH. simpl.
  destruct (live now t) eqn:El; [|reflexivity].
  apply (live_earlier c) in El; [|exact Hle].
  unfold live in El. rewrite E in El. discriminate.
Qed.

Lemma run_checks_live (calls : list (pystr * Q)) :
  forall (log : store) (ip : pystr) (now : Q),
    Forall (fun c => (c <= now)%Q) (client_times ip calls) ->
    List.filter (live now) (window (snd (run_checks calls log)) ip) =
      List.filter (live now) (window log ip) ++
      List.filter (live now)
        (admitted_times ip calls (fst (run_checks calls log))).
Proof.
  induction calls as [|[c t] calls IH]; intros log ip now Hall.
  - simpl. now rewrite app_nil_r.
  - rewrite run_checks_cons. cbn [fst snd]. simpl in Hall.
    simpl admitted_times.
    destruct (decide (c = ip)) as [->|Hne].
    + inversion Hall as [|? ? Ht Hall']; subst.
      rewrite (IH _ _ _ Hall').
      destruct (check_cases ip t log) as [(Hd & _ & Hw)|(r & Hd & _ & Hw)];
        rewrite Hd, Hw.
      * rewrite List.filter_app, prune_filter_live by exact Ht.
        simpl. rewrite <- app_assoc. now destruct (live now t).
      * now rewrite prune_filter_live by exact Ht.
    + rewrite (IH _ _ _ Hall), check_window_other by exact Hne.
      destruct (fst (check_rate_limit c t log)) as [[|r]|e]; reflexivity.
Qed.

Lemma filter_length_le {A : Type} (f : A -> bool) (l : list A) :
  length (List.filter f l) <= length l.
Proof.
  induction l as [|x l IH]; simpl; [lia|].
  destruct (f x); simpl; lia.
Qed.

(** C2: for a client whose clock readings never decrease, once
    [RATE_LIMIT_MAX] of its requests have been admitted at times that
    are all still less than [RATE_LIMIT_WINDOW] seconds before [now],
    the check at [now] is answered Deny. *)
Theorem quota_exhausted_denies
    (calls : list (pystr * Q)) (log : store) (ip : pystr) (now : Q) :
  nondecreasing (client_times ip calls ++ [now]) = true ->
  RATE_LIMIT_MAX <=
    length (List.filter (live now)
              (admitted_times ip calls (fst (run_checks calls log)))) ->
  exists r,
    fst (check_rate_limit ip now (snd (run_checks calls log))) = Ret (Deny r).
Proof.
  intros Hs Hn.
  apply nondecreasing_app_inv in Hs. destruct Hs as (_ & _ & Hle).
  assert (Hall : Forall (fun c => (c <= now)%Q) (client_times ip calls)).
  { eapply Forall_impl; [exact Hle|]. intros c Hc. now inversion Hc. }
  pose proof (run_checks_live calls log ip now Hall) as Hlive.
  destruct (check_cases ip now (snd (run_checks calls log)))
    as [(_ & Hlt & _)|(r & Hd & _)]; [|now exists r].
  exfalso.
  pose proof (prune_filter_live now now
                (window (snd (run_checks calls log)) ip) (Qle_refl now)) as Hp.
  pose proof (filter_length_le (live now)
                (prune now (window (snd (run_checks calls log)) ip))) as Hfl.
  rewrite Hp, Hlive, length_app in Hfl. lia.
Qed.

Lemma quota_exhausted_denies_witness :
  exists r,
    fst (check_rate_limit (py "10.0.0.1") 3599
           (snd (run_checks (replicate 120 (py "10.0.0.1", 0%Q)) request_log)))
      = Ret (Deny r).
Proof.
  apply quota_exhausted_denies.
  - vm_compute. reflexivity.
  - vm_compute. apply le_n.
Defined.

(** ** Independence of clients *)

Lemma run_checks_other (calls : list (pystr * Q)) :
  forall (log : store) (b : pystr),
    Forall (fun c => fst c <> b) calls ->
    snd (run_checks calls log) !! b = log !! b.
Proof.
  induction calls as [|[c t] calls IH]; intros log b Hall; [reflexivity|].
  inversion Hall as [|? ? Hc Hall']; subst. simpl in Hc.
  rewrite run_checks_cons. cbn [snd].
  rewrite (IH _ _ Hall'). now apply check_lookup_other.
Qed.

(** C5: a call for client [a] leaves the window of every other client
    [b] as it was; so after any sequence of calls made by [a] (however
    many were admitted or denied) a check for [b] is decided exactly as
    if [a] had never called, and in particular is not denied because of
    them. *)
Theorem clients_do_not_interfere (a b : pystr) (log : store) :
  a <> b ->
  (forall now, snd (check_rate_limit a now log) !! b = log !! b) /\
  (forall calls,
     Forall (fun c => fst c = a) calls ->
     snd (run_checks calls log) !! b = log !! b /\
     forall now,
       fst (check_rate_limit b now (snd (run_checks calls log))) =
       fst (check_rate_limit b now log)).
Proof.
  intros Hne. split.
  - intros now. now apply check_lookup_other.
  - intros calls Hall.
    assert (Hlk : snd (run_checks calls log) !! b = log !! b).
    { apply run_checks_other. eapply Forall_impl; [exact Hall|].
      intros c Hc. simpl in Hc. congruence. }
    split; [exact Hlk|].
    intros now. apply check_decision_window. unfold window. now rewrite Hlk.
Qed.

Lemma clients_do_not_interfere_witness :
  (forall now,
     snd (check_rate_limit (py "10.0.0.1") now request_log) !! (py "10.0.0.2")
       = request_log !! (py "10.0.0.2")) /\
  (forall calls,
     Forall (fun c => fst c = py "10.0.0.1") calls ->
     snd (run_checks calls request_log) !! (py "10.0.0.2")
       = request_log !! (py "10.0.0.2") /\
     forall now,
       fst (check_rate_limit (py "10.0.0.2") now
              (snd (run_checks calls request_log))) =
       fst (check_rate_limit (py "10.0.0.2") now request_log)).
Proof. apply clients_do_not_interfere. vm_compute. discriminate. Defined.

(** * Properties of the /chat handler *)

Section ChatProperties.

Variable MODEL : pystr.
Variable create : completion_args -> pyresult pyval.

Lemma chat_log_after (req : request) (now : Q) (log : store) :
  log_after (chat MODEL create req now log) =
    snd (check_rate_limit (ip_from_request req) now log).
Proof.
  unfold chat.
  destruct (check_rate_limit (ip_from_request req) now log) as [[[|r]|e] log1];
    cbn [snd]; try reflexivity.
  destruct (lacks_message (get_json req)) as [[|]|e]; try reflexivity.
  destruct (_ ← py_get _ _ _; _) as [um|e]; try reflexivity.
  destruct (negb (truthy (PStr um))); [reflexivity|].
  now destruct (relay MODEL create um).
Qed.

Lemma chat_deny (req : request) (now : Q) (log : store) (r : Q) :
  fst (check_rate_limit (ip_from_request req) now log) = Ret (Deny r) ->
  chat MODEL create req now log =
    Outcome
      (Ret (Response (PDict [(py "error", PStr (py "rate_limited"));
                             (py "retry_after_seconds", PInt (py_int r))])
                     429))
      (snd (check_rate_limit (ip_from_request req) now log)) [].
Proof.
  intros Hd. unfold chat.
  destruct (check_rate_limit (ip_from_request req) now log) as [d log1].
  cbn [fst snd] in *. subst d. reflexivity.
Qed.

Lemma chat_admit (req : request) (now : Q) (log : store) :
  fst (check_rate_limit (ip_from_request req) now log) = Ret Admit ->
  chat MODEL create req now log =
    let log1 := snd (check_rate_limit (ip_from_request req) now log) in
    let data := get_json req in
    match lacks_message data with
    | Raise e => Outcome (Raise e) log1 []
    | Ret true =>
        Outcome
          (Ret (Response
                  (invalid_request "Provide JSON body with 'message' field.")
                  400))
          log1 []
    | Ret false =>
        match (m ← py_get data (py "message") (PStr []); sanitize_text m) with
        | Raise e => Outcome (Raise e) log1 []
        | Ret user_message =>
            if negb (truthy (PStr user_message)) then
              Outcome (Ret (Response (invalid_request "Empty message.") 400))
                      log1 []
            else
              Outcome (fst (relay MODEL create user_message)) log1
                      (snd (relay MODEL create user_message))
        end
    end.
Proof.
  intros Hd. unfold chat.
  destruct (check_rate_limit (ip_from_request req) now log) as [d log1].
  cbn [fst snd] in *. subst d. cbv zeta.
  destruct (lacks_message (get_json req)) as [[|]|e]; try reflexivity.
  destruct (_ ← py_get _ _ _; _) as [um|e]; try reflexivity.
  destruct (negb (truthy (PStr um))); [reflexivity|].
  now destruct (relay MODEL create um).
Qed.

Lemma assoc_contains (k : pystr) (kvs : list (pystr * pyval)) :
  existsb (fun kv => pystr_eqb (fst kv) k) kvs =
    match assoc k kvs with Some _ => true | None => false end.
Proof.
  induction kvs as [|[k' v] kvs IH]; [reflexivity|].
  simpl. destruct (pystr_eqb k' k); [reflexivity | exact IH].
Qed.

Lemma lacks_message_falsy (data : pyval) :
  truthy data = false -> lacks_message data = Ret true.
Proof. intros H. unfold lacks_message. now rewrite H. Qed.

Lemma lacks_message_dict (kvs : list (pystr * pyval)) :
  lacks_message (PDict kvs) =
    Ret (match assoc (py "message") kvs with
         | Some _ => false
         | None => true
         end).
Proof.
  unfold lacks_message. destruct kvs as [|kv kvs]; [reflexivity|].
  cbn [truthy negb py_contains]. cbn [mbind pyresult_bind mret pyresult_ret].
  rewrite assoc_contains.
  now destruct (assoc (py "message") (kv :: kvs)).
Qed.

Lemma truthy_str (s : pystr) : truthy (PStr s) = false <-> s = [].
Proof.
  unfold truthy, pystr_eqb. rewrite negb_false_iff, bool_decide_eq_true.
  reflexivity.
Qed.

(** Rejected bodies: a 400, the completion service is not called. *)
Lemma chat_invalid_body (req : request) (now : Q) (log : store) :
  fst (check_rate_limit (ip_from_request req) now log) = Ret Admit ->
  invalid_body (get_json req) = true ->
  (sends (chat MODEL create req now log)
         (invalid_request "Provide JSON body with 'message' field.") 400 \/
   sends (chat MODEL create req now log)
         (invalid_request "Empty message.") 400) /\
  trace (chat MODEL create req now log) = [].
Proof.
  intros Hadm Hinv. rewrite (chat_admit _ _ _ Hadm). cbv zeta. unfold sends.
  unfold invalid_body in Hinv.
  destruct (truthy (get_json req)) eqn:Ht.
  2:{ rewrite (lacks_message_falsy _ Ht). split; [left|]; reflexivity. }
  cbn [negb orb] in Hinv.
  destruct (get_json req) as [| | | | | |kvs|]; try discriminate.
  rewrite lacks_message_dict. cbn [py_get].
  destruct (assoc (py "message") kvs) as [[| | | |s| | |]|];
    try discriminate; [|split; [left|]; reflexivity].
  cbn [default mbind pyresult_bind sanitize_text option_rect id].
  unfold pystr_eqb in Hinv. apply bool_decide_eq_true in Hinv.
  rewrite Hinv. split; [right|]; reflexivity.
Qed.

(** Forwarded bodies: the handler's answer is the relay's. *)
Lemma chat_well_formed (req : request) (now : Q) (log : store) :
  fst (check_rate_limit (ip_from_request req) now log) = Ret Admit ->
  well_formed (get_json req) = true ->
  exists user_message,
    message_of (get_json req) = Some user_message /\
    result (chat MODEL create req now log) =
      fst (relay MODEL create user_message) /\
    trace (chat MODEL create req now log) =
      snd (relay MODEL create user_message).
Proof.
  intros Hadm Hwf. rewrite (chat_admit _ _ _ Hadm). cbv zeta.
  unfold well_formed, message_of in *.
  destruct (get_json req) as [| | | | | |kvs|]; try discriminate.
  rewrite lacks_message_dict. cbn [py_get].
  destruct (assoc (py "message") kvs) as [[| | | |s| | |]|];
    try discriminate.
  cbn [default mbind pyresult_bind sanitize_text option_rect id].
  destruct (strip s) as [|c um] eqn:Hs; [discriminate|].
  exists (c :: um). repeat split.
Qed.

End ChatProperties.

(** ** Denials *)

Lemma check_deny_inv (ip : pystr) (now r : Q) (log : store) :
  fst (check_rate_limit ip now log) = Ret (Deny r) ->
  exists t0 rest,
    prune now (window log ip) = t0 :: rest /\
    r = (RATE_LIMIT_WINDOW - (now - t0))%Q.
Proof.
  unfold check_rate_limit. cbv zeta.
  destruct (RATE_LIMIT_MAX <=? _)%nat; [|discriminate].
  destruct (prune now (window log ip)) as [|t0 rest]; [discriminate|].
  cbn [fst]. intros [= <-]. now exists t0, rest.
Qed.

Lemma check_admit_store (ip : pystr) (now : Q) (log : store) :
  fst (check_rate_limit ip now log) = Ret Admit ->
  snd (check_rate_limit ip now log) =
    <[ip := prune now (window log ip) ++ [now]]> log.
Proof.
  unfold check_rate_limit. cbv zeta.
  destruct (RATE_LIMIT_MAX <=? _)%nat; [|reflexivity].
  destruct (prune now (window log ip)); discriminate.
Qed.

Lemma py_int_bounds (r : Q) :
  (0 <= r)%Q -> (r <= RATE_LIMIT_WINDOW)%Q -> (0 <= py_int r <= 3600)%Z.
Proof.
  destruct r as [n d]. unfold Qle, py_int. simpl. intros H0 H1. split.
  - apply Z.quot_pos; lia.
  - apply Z.quot_le_upper_bound; lia.
Qed.

(** C4: with a clock that never runs backwards for the client, the
    retry-after duration of every Deny lies between 0 and
    [RATE_LIMIT_WINDOW], and the 429 response carries that duration
    truncated to an integer as [retry_after_seconds]. *)
Theorem retry_after_bounds
    (MODEL : pystr) (create : completion_args -> pyresult pyval)
    (calls : list (pystr * Q)) (req : request) (now r : Q) :
  nondecreasing (client_times (ip_from_request req) calls ++ [now]) = true ->
  fst (check_rate_limit (ip_from_request req) now
         (snd (run_checks calls request_log))) = Ret (Deny r) ->
  (0 <= r)%Q /\ (r <= RATE_LIMIT_WINDOW)%Q /\
  (0 <= py_int r <= 3600)%Z /\
  sends (chat MODEL create req now (snd (run_checks calls request_log)))
        (PDict [(py "error", PStr (py "rate_limited"));
                (py "retry_after_seconds", PInt (py_int r))])
        429.
Proof.
  intros Hs Hd.
  pose proof (run_checks_fresh_hist calls _ _ Hs) as (_ & Hall & _).
  destruct (check_deny_inv _ _ _ _ Hd) as (t0 & rest & Hp & ->).
  pose proof (prune_head now
    (window (snd (run_checks calls request_log)) (ip_from_request req))) as Hh.
  apply (prune_Forall _ now) in Hall.
  rewrite Hp in Hh, Hall. inversion Hall as [|? ? Hle _]; subst.
  assert (H0 : (0 <= RATE_LIMIT_WINDOW - (now - t0))%Q) by lra.
  assert (H1 : (RATE_LIMIT_WINDOW - (now - t0) <= RATE_LIMIT_WINDOW)%Q) by lra.
  repeat split; try assumption; try (now apply py_int_bounds).
  unfold sends. now rewrite (chat_deny _ _ _ _ _ _ Hd).
Qed.

Lemma retry_after_bounds_witness :
  (0 <= 3590)%Q /\ (3590 <= RATE_LIMIT_WINDOW)%Q /\
  (0 <= py_int 3590 <= 3600)%Z /\
  sends (chat (py "gpt-4o-mini") (fun _ => Raise (Exn [] []))
           (Request None (Some (py "10.0.0.1")) PNone) 10
           (snd (run_checks (replicate 120 (py "10.0.0.1", 0%Q)) request_log)))
        (PDict [(py "error", PStr (py "rate_limited"));
                (py "retry_after_seconds", PInt (py_int 3590))])
        429.
Proof.
  apply (retry_after_bounds _ _ (replicate 120 (py "10.0.0.1", 0%Q))).
  - vm_compute. reflexivity.
  - vm_compute. reflexivity.
Defined.

(** ** Rejected bodies *)

(** C6 (failing input): a JSON body that is a bare number has no
    [message] field, yet the handler does not answer 400: the membership
    test raises [TypeError], which leaves the handler uncaught, after the
    request was admitted and without calling the completion service. *)
Theorem chat_number_body_raises
    (MODEL : pystr) (create : completion_args -> pyresult pyval) :
  fst (check_rate_limit (py "203.0.113.7") 0 request_log) = Ret Admit /\
  result (chat MODEL create
            (Request None (Some (py "203.0.113.7")) (PInt 5)) 0 request_log)
    = Raise (TypeError "argument of type 'int' is not iterable") /\
  forall d,
    ~ sends (chat MODEL create
               (Request None (Some (py "203.0.113.7")) (PInt 5)) 0 request_log)
            d 400.
Proof.
  assert (Hr : result (chat MODEL create
            (Request None (Some (py "203.0.113.7")) (PInt 5)) 0 request_log)
    = Raise (TypeError "argument of type 'int' is not iterable"))
    by reflexivity.
  split; [reflexivity|]. split; [exact Hr|].
  intros d. unfold sends. rewrite Hr. discriminate.
Qed.

(** C10: an admitted request has its timestamp appended to the client's
    window before the body is looked at; when the body is then rejected
    with 400 invalid_request, the store the handler leaves behind still
    holds that timestamp. *)
Theorem invalid_request_consumes_slot
    (MODEL : pystr) (create : completion_args -> pyresult pyval)
    (req : request) (now : Q) (log : store) :
  fst (check_rate_limit (ip_from_request req) now log) = Ret Admit ->
  invalid_body (get_json req) = true ->
  (sends (chat MODEL create req now log)
         (invalid_request "Provide JSON body with 'message' field.") 400 \/
   sends (chat MODEL create req now log)
         (invalid_request "Empty message.") 400) /\
  log_after (chat MODEL create req now log) =
    <[ip_from_request req :=
        prune now (window log (ip_from_request req)) ++ [now]]> log /\
  window (log_after (chat MODEL create req now log)) (ip_from_request req) =
    prune now (window log (ip_from_request req)) ++ [now].
Proof.
  intros Hadm Hinv.
  destruct (chat_invalid_body MODEL create req now log Hadm Hinv) as [Hs _].
  split; [exact Hs|].
  rewrite chat_log_after, (check_admit_store _ _ _ Hadm).
  split; [reflexivity|].
  unfold window at 1. now rewrite lookup_insert_eq.
Qed.

Lemma invalid_request_consumes_slot_witness :
  window (log_after
            (chat (py "gpt-4o-mini") (fun _ => Raise (Exn [] []))
               (Request None (Some (py "10.0.0.1"))
                        (PDict [(py "message", PStr (py "  "))]))
               7 request_log))
         (py "10.0.0.1") = [7%Q].
Proof.
  refine (proj2 (proj2 (invalid_request_consumes_slot _ _
    (Request None (Some (py "10.0.0.1")) (PDict [(py "message", PStr (py "  "))]))
    7 request_log _ _))).
  - vm_compute. reflexivity.
  - vm_compute. reflexivity.
Defined.

(** ** The completion call *)

Lemma relay_raise (MODEL : pystr) (create : completion_args -> pyresult pyval)
    (user_message : pystr) (e : exn) :
  create (completion_request MODEL user_message) = Raise e ->
  relay MODEL create user_message =
    (Ret (Response (openai_error e) 500),
     [CallCompletion (completion_request MODEL user_message);
      Printed [py "OpenAI error:"; exn_str e]]).
Proof. intros He. unfold relay. cbv zeta. rewrite He. reflexivity. Qed.

(** C8: when the completion call raises on an admitted, well-formed
    request, the handler answers 500 with
    [{error: "openai_error", message: str(e)}], has called the service
    exactly once (no retry), and has printed the failure. *)
Theorem completion_failure_is_reported
    (MODEL : pystr) (create : completion_args -> pyresult pyval)
    (req : request) (now : Q) (log : store) (user_message : pystr) (e : exn) :
  fst (check_rate_limit (ip_from_request req) now log) = Ret Admit ->
  well_formed (get_json req) = true ->
  message_of (get_json req) = Some user_message ->
  create (completion_request MODEL user_message) = Raise e ->
  sends (chat MODEL create req now log) (openai_error e) 500 /\
  calls_made (chat MODEL create req now log) =
    [completion_request MODEL user_message] /\
  trace (chat MODEL create req now log) =
    [CallCompletion (completion_request MODEL user_message);
     Printed [py "OpenAI error:"; exn_str e]].
Proof.
  intros Hadm Hwf Hm He.
  destruct (chat_well_formed MODEL create req now log Hadm Hwf)
    as (um & Hm' & Hr & Ht).
  rewrite Hm in Hm'. injection Hm' as <-.
  rewrite (relay_raise _ _ _ _ He) in Hr, Ht. cbn [fst snd] in Hr, Ht.
  unfold sends, calls_made. rewrite Hr, Ht. repeat split.
Qed.

Lemma completion_failure_is_reported_witness :
  sends (chat (py "gpt-4o-mini")
              (fun _ => Raise (Exn (py "APITimeoutError") (py "Request timed out.")))
              (Request (Some (py "198.51.100.4, 10.0.0.1")) None
                       (PDict [(py "message", PStr (py " hello "))]))
              0 request_log)
        (openai_error (Exn (py "APITimeoutError") (py "Request timed out.")))
        500.
Proof.
  refine (proj1 (completion_failure_is_reported _ _ _ _ _ (py "hello") _ _ _ _ _));
    vm_compute; reflexivity.
Defined.

Lemma relay_return (MODEL : pystr) (create : completion_args -> pyresult pyval)
    (user_message : pystr) (resp text : pyval) :
  create (completion_request MODEL user_message) = Ret resp ->
  reply_text resp = Ret text ->
  json_serializable text = true ->
  relay MODEL create user_message =
    (Ret (Response (PDict [(py "reply", text)]) 200),
     [CallCompletion (completion_request MODEL user_message)]).
Proof.
  intros Hc Hr Hj. unfold relay. cbv zeta. rewrite Hc.
  cbn [mbind pyresult_bind]. rewrite Hr. cbn [mbind pyresult_bind].
  unfold respond, jsonify.
  cbn [json_serializable forallb snd]. rewrite Hj. reflexivity.
Qed.

(** Older response format: the first choice has no [message] but carries
    its text in the [text] attribute.  Reading [message.content] fails,
    and the handler replies with that text. *)
Lemma legacy_text_is_not_the_apology :
  (exists e,
     extract_content
       (PObj [(py "choices", PList [PObj [(py "text", PStr (py "Namaste"))]])])
       = Raise e) /\
  sends (chat (py "gpt-4o-mini")
              (fun _ => Ret (PObj [(py "choices",
                                    PList [PObj [(py "text", PStr (py "Namaste"))]])]))
              (Request None (Some (py "10.0.0.1"))
                       (PDict [(py "message", PStr (py "hi"))]))
              0 request_log)
        (PDict [(py "reply", PStr (py "Namaste"))]) 200 /\
  ~ sends (chat (py "gpt-4o-mini")
              (fun _ => Ret (PObj [(py "choices",
                                    PList [PObj [(py "text", PStr (py "Namaste"))]])]))
              (Request None (Some (py "10.0.0.1"))
                       (PDict [(py "message", PStr (py "hi"))]))
              0 request_log)
        (PDict [(py "reply", PStr parsing_error_reply)]) 200.
Proof.
  split; [eexists; vm_compute; reflexivity|].
  split; [vm_compute; reflexivity|].
  unfold sends. vm_compute. discriminate.
Qed.

(** A response without any choice: the fallback itself raises, and the
    outer handler turns the malformed success into a 500. *)
Lemma empty_choices_is_reported_as_error :
  sends (chat (py "gpt-4o-mini")
              (fun _ => Ret (PObj [(py "choices", PList [])]))
              (Request None (Some (py "10.0.0.1"))
                       (PDict [(py "message", PStr (py "hi"))]))
              0 request_log)
        (openai_error (IndexError "list index out of range")) 500.
Proof. vm_compute. reflexivity. Qed.

(** When the first choice can be read but its [message.content] cannot,
    the handler answers 200 with a [reply]: the fixed apology when the
    choice has no non-empty [text] attribute, and that [text] when it has
    one that can be serialised. *)
Theorem malformed_reply_fallback
    (MODEL : pystr) (create : completion_args -> pyresult pyval)
    (req : request) (now : Q) (log : store) (user_message : pystr)
    (resp choice : pyval) (e : exn) :
  fst (check_rate_limit (ip_from_request req) now log) = Ret Admit ->
  well_formed (get_json req) = true ->
  message_of (get_json req) = Some user_message ->
  create (completion_request MODEL user_message) = Ret resp ->
  first_choice resp = Ret choice ->
  extract_content resp = Raise e ->
  (truthy (py_getattr_default choice (py "text") (PStr [])) = false ->
   sends (chat MODEL create req now log)
         (PDict [(py "reply", PStr parsing_error_reply)]) 200) /\
  (truthy (py_getattr_default choice (py "text") (PStr [])) = true ->
   json_serializable (py_getattr_default choice (py "text") (PStr [])) = true ->
   sends (chat MODEL create req now log)
         (PDict [(py "reply", py_getattr_default choice (py "text") (PStr []))])
         200).
Proof.
  intros Hadm Hwf Hm Hc Hfc Hex.
  destruct (chat_well_formed MODEL create req now log Hadm Hwf)
    as (um & Hm' & Hr & _).
  rewrite Hm in Hm'. injection Hm' as <-.
  assert (Hrt : reply_text resp =
    Ret (if truthy (py_getattr_default choice (py "text") (PStr []))
         then py_getattr_default choice (py "text") (PStr [])
         else PStr parsing_error_reply)).
  { unfold reply_text. rewrite Hex. unfold extract_fallback. now rewrite Hfc. }
  unfold sends. rewrite Hr. split.
  - intros Ht. rewrite Ht in Hrt.
    now rewrite (relay_return _ _ _ _ _ Hc Hrt).
  - intros Ht Hj. rewrite Ht in Hrt.
    now rewrite (relay_return _ _ _ _ _ Hc Hrt Hj).
Qed.

Lemma malformed_reply_fallback_witness :
  sends (chat (py "gpt-4o-mini")
              (fun _ => Ret (PObj [(py "choices", PList [PObj []])]))
              (Request None (Some (py "10.0.0.1"))
                       (PDict [(py "message", PStr (py "hi"))]))
              0 request_log)
        (PDict [(py "reply", PStr parsing_error_reply)]) 200.
Proof.
  refine (proj1 (malformed_reply_fallback _ _ _ _ _ (py "hi")
                   (PObj [(py "choices", PList [PObj []])]) (PObj [])
                   (AttributeError "object has no such attribute") _ _ _ _ _ _) _);
    vm_compute; reflexivity.
Defined.

(** C7 (failing input): the service returns successfully, but the first
    choice of the response cannot be read (for instance [choices] is
    empty), so no text can be extracted.  The recovery branch evaluates
    [resp.choices[0]] again, raises the same exception, and the outer
    handler answers 500 [openai_error] after printing the failure: the
    handler sends no 200 and no apology. *)
Theorem unreadable_first_choice_answers_500
    (MODEL : pystr) (create : completion_args -> pyresult pyval)
    (req : request) (now : Q) (log : store) (user_message : pystr)
    (resp : pyval) (e : exn) :
  fst (check_rate_limit (ip_from_request req) now log) = Ret Admit ->
  well_formed (get_json req) = true ->
  message_of (get_json req) = Some user_message ->
  create (completion_request MODEL user_message) = Ret resp ->
  first_choice resp = Raise e ->
  extract_content resp = Raise e /\
  sends (chat MODEL create req now log) (openai_error e) 500 /\
  (forall d, ~ sends (chat MODEL create req now log) d 200) /\
  trace (chat MODEL create req now log) =
    [CallCompletion (completion_request MODEL user_message);
     Printed [py "OpenAI error:"; exn_str e]].
Proof.
  intros Hadm Hwf Hm Hc Hfc.
  destruct (chat_well_formed MODEL create req now log Hadm Hwf)
    as (um & Hm' & Hr & Ht).
  rewrite Hm in Hm'. injection Hm' as <-.
  assert (Hex : extract_content resp = Raise e).
  { unfold extract_content. now rewrite Hfc. }
  assert (Hrt : reply_text resp = Raise e).
  { unfold reply_text. rewrite Hex. unfold extract_fallback. now rewrite Hfc. }
  assert (Hrelay : relay MODEL create user_message =
    (Ret (Response (openai_error e) 500),
     [CallCompletion (completion_request MODEL user_message);
      Printed [py "OpenAI error:"; exn_str e]])).
  { unfold relay. cbv zeta. rewrite Hc. cbn [mbind pyresult_bind].
    rewrite Hrt. reflexivity. }
  rewrite Hrelay in Hr, Ht. cbn [fst snd] in Hr, Ht.
  split; [exact Hex|]. unfold sends. rewrite Hr.
  split; [reflexivity|]. split; [|exact Ht].
  intros d Hd. discriminate Hd.
Qed.

Lemma unreadable_first_choice_answers_500_witness :
  sends (chat (py "gpt-4o-mini")
              (fun _ => Ret (PObj [(py "choices", PList [])]))
              (Request None (Some (py "10.0.0.1"))
                       (PDict [(py "message", PStr (py "hi"))]))
              0 request_log)
        (openai_error (IndexError "list index out of range")) 500.
Proof.
  refine (proj1 (proj2 (unreadable_first_choice_answers_500 _ _ _ _ _ (py "hi")
                   (PObj [(py "choices", PList [])])
                   (IndexError "list index out of range") _ _ _ _ _)));
    vm_compute; reflexivity.
Defined.

(** A reply that [jsonify] cannot serialise is reported the same way. *)
Lemma unserialisable_reply_answers_500
    (MODEL : pystr) (create : completion_args -> pyresult pyval)
    (user_message : pystr) (resp text : pyval) :
  create (completion_request MODEL user_message) = Ret resp ->
  reply_text resp = Ret text ->
  json_serializable text = false ->
  fst (relay MODEL create user_message) =
    Ret (Response (openai_error (TypeError "Object is not JSON serializable")) 500).
Proof.
  intros Hc Hr Hj. unfold relay. cbv zeta. rewrite Hc.
  cbn [mbind pyresult_bind]. rewrite Hr. cbn [mbind pyresult_bind].
  unfold respond, jsonify.
  cbn [json_serializable forallb snd]. rewrite Hj. reflexivity.
Qed.

(** * Concurrent calls *)

Lemma run_alone_S (fuel : nat) (t : thread) (log : store) :
  run_alone (S fuel) t log =
    run_alone fuel (fst (step_thread t log)) (snd (step_thread t log)).
Proof. simpl. now destruct (step_thread t log). Qed.

Lemma run_alone_returned (fuel : nat) (ip : pystr) (now : Q)
    (d : pyresult decision) (log : store) :
  run_alone fuel (Thread ip now (Returned d)) log =
    (Thread ip now (Returned d), log).
Proof. induction fuel as [|fuel IH]; [reflexivity | exact IH]. Qed.

Lemma window_lookup (log : store) (ip : pystr) (q : list Q) :
  log !! ip = Some q -> window log ip = q.
Proof. intros H. unfold window. now rewrite H. Qed.

Ltac thread_step Hw :=
  rewrite run_alone_S; unfold step_thread, at_pc;
  cbn [th_pc th_ip th_now]; rewrite ?Hw; cbn [fst snd].

(** From the loop test on, an uninterrupted thread computes what
    [check_rate_limit] computes. *)
Lemma run_alone_loop (ip : pystr) (now : Q) (q : list Q) :
  forall (log : store) (fuel : nat),
    log !! ip = Some q ->
    2 * length q + 3 <= fuel ->
    run_alone fuel (Thread ip now AtLoopTest) log =
      (Thread ip now (Returned (fst (check_rate_limit ip now log))),
       snd (check_rate_limit ip now log)).
Proof.
  induction q as [|t0 q IH]; intros log fuel Hq Hfuel.
  - destruct fuel as [|[|[|fuel]]]; try (simpl in Hfuel; lia).
    pose proof (window_lookup _ _ _ Hq) as Hw.
    thread_step Hw. thread_step Hw.
    change (RATE_LIMIT_MAX <=? length (@nil Q))%nat with false. cbn [fst snd].
    thread_step Hw.
    rewrite run_alone_returned.
    unfold check_rate_limit. rewrite Hw. reflexivity.
  - pose proof (window_lookup _ _ _ Hq) as Hw.
    destruct fuel as [|[|[|fuel]]]; try (simpl in Hfuel; lia).
    thread_step Hw.
    destruct (Qle_bool t0 (now - RATE_LIMIT_WINDOW)) eqn:E; cbn [fst snd].
    + thread_step Hw.
      rewrite IH; [|apply lookup_insert_eq | simpl in Hfuel; lia].
      unfold check_rate_limit. unfold window.
      rewrite lookup_insert_eq, Hq. cbn [default option_rect id prune].
      rewrite E. cbv zeta.
      destruct (RATE_LIMIT_MAX <=? length (prune now q))%nat.
      * destruct (prune now q); cbn [fst snd]; now rewrite insert_insert_eq.
      * cbn [fst snd]. now rewrite insert_insert_eq.
    + unfold check_rate_limit. rewrite Hw. cbn [prune]. rewrite E. cbv zeta.
      thread_step Hw.
      destruct (RATE_LIMIT_MAX <=? length (t0 :: q))%nat; cbn [fst snd].
      * thread_step Hw.
        rewrite run_alone_returned. now rewrite insert_id.
      * thread_step Hw.
        now rewrite run_alone_returned.
Qed.

(** A call that is not interrupted behaves as [check_rate_limit]. *)
Lemma run_alone_check (ip : pystr) (now : Q) (log : store) :
  run_alone (2 * length (window log ip) + 4) (Thread ip now AtLookup) log =
    (Thread ip now (Returned (fst (check_rate_limit ip now log))),
     snd (check_rate_limit ip now log)).
Proof.
  replace (2 * length (window log ip) + 4)
    with (S (2 * length (window log ip) + 3)) by lia.
  rewrite run_alone_S. unfold step_thread, at_pc.
  cbn [th_pc th_ip th_now fst snd].
  rewrite (run_alone_loop ip now (window log ip));
    [|apply lookup_insert_eq | lia].
  rewrite (check_decision_window ip now _ log).
  2:{ unfold window at 1. now rewrite lookup_insert_eq. }
  f_equal. unfold check_rate_limit.
  assert (Hw : window (<[ip := window log ip]> log) ip = window log ip).
  { unfold window at 1. now rewrite lookup_insert_eq. }
  rewrite Hw. cbv zeta.
  destruct (RATE_LIMIT_MAX <=? length (prune now (window log ip)))%nat.
  - destruct (prune now (window log ip)); cbn [snd]; now rewrite insert_insert_eq.
  - cbn [snd]. now rewrite insert_insert_eq.
Qed.

(** C9 (counterexample): 121 requests of a fresh client arrive together.
    Scheduled so that every thread evaluates [len(q) >= RATE_LIMIT_MAX]
    before any thread appends, all 121 are admitted and none is denied:
    one more admission than [RATE_LIMIT_MAX] allows. *)
Lemma interleaved_checks_overshoot :
  admits (fst (exec (test_then_append 121)
                    (spawn 121 (py "10.0.0.1") 0, request_log))) = 121 /\
  denials (fst (exec (test_then_append 121)
                     (spawn 121 (py "10.0.0.1") 0, request_log))) = 0 /\
  RATE_LIMIT_MAX < 121.
Proof. vm_compute. repeat split. apply le_n. Qed.

(** The same requests served one after another: 120 admitted, 1 denied. *)
Lemma serialized_checks_respect_max :
  admits (fst (exec (one_at_a_time 121)
                    (spawn 121 (py "10.0.0.1") 0, request_log))) = RATE_LIMIT_MAX /\
  denials (fst (exec (one_at_a_time 121)
                     (spawn 121 (py "10.0.0.1") 0, request_log))) = 1.
Proof. vm_compute. split; reflexivity. Qed.

Lemma prune_live_id (now : Q) (q : list Q) :
  Forall (fun t => live now t = true) q -> prune now q = q.
Proof.
  intros Hall. destruct q as [|t q]; [reflexivity|].
  inversion Hall as [|? ? Ht _]; subst.
  unfold live in Ht. apply negb_true_iff in Ht. simpl. now rewrite Ht.
Qed.

Lemma live_later (now t u : Q) :
  (t <= u)%Q -> live now t = true -> live now u = true.
Proof. rewrite !live_true. intros. lra. Qed.

(** Calls of one client at times among which nothing expires: they are
    admitted until the window is full and denied from then on. *)
Lemma run_checks_no_expiry (ip : pystr) (ts : list Q) :
  forall (log : store),
    Forall (fun u => Forall (fun t => live u t = true) (window log ip ++ ts)) ts ->
    length (List.filter is_admit (fst (run_checks (map (pair ip) ts) log))) =
      Nat.min (length ts) (RATE_LIMIT_MAX - length (window log ip)) /\
    length (List.filter is_deny (fst (run_checks (map (pair ip) ts) log))) =
      length ts - (RATE_LIMIT_MAX - length (window log ip)).
Proof.
  induction ts as [|u ts IH]; intros log Hall.
  - simpl. split; reflexivity.
  - inversion Hall as [|? ? Hu Hrest]; subst.
    apply Forall_app in Hu. destruct Hu as [Hq _].
    cbn [map]. rewrite run_checks_cons. cbn [fst].
    pose proof (prune_live_id u _ Hq) as Hp.
    destruct (check_cases ip u log) as [(Hd & Hlt & Hw)|(r & Hd & Hge & Hw)];
      rewrite Hp in *; rewrite Hd; cbn [List.filter is_admit is_deny length].
    + destruct (IH (snd (check_rate_limit ip u log))) as [Ha Hn].
      { rewrite Hw, <- app_assoc. cbn [app].
        eapply Forall_impl; [exact Hrest|]. intros x Hx. exact Hx. }
      rewrite Ha, Hn, Hw, length_app. cbn [length]. split; lia.
    + destruct (IH (snd (check_rate_limit ip u log))) as [Ha Hn].
      { rewrite Hw. eapply Forall_impl; [exact Hrest|].
        intros x Hx. apply Forall_app in Hx. destruct Hx as [Hx1 Hx2].
        apply Forall_app. split; [exact Hx1 | now inversion Hx2]. }
      rewrite Ha, Hn, Hw. split; lia.
Qed.

Lemma within_one_window_live (ts : list Q) :
  nondecreasing ts = true ->
  within_one_window ts = true ->
  Forall (fun u => Forall (fun t => live u t = true) ts) ts.
Proof.
  intros Hs Hw. destruct ts as [|t0 ts]; [constructor|].
  unfold within_one_window in Hw.
  apply nondecreasing_cons in Hs. destruct Hs as [Hle _].
  assert (Hall : Forall (fun t => (t0 <= t)%Q) (t0 :: ts)).
  { constructor; [apply Qle_refl | exact Hle]. }
  apply Forall_forall. intros u Hu.
  assert (Hlu : live u t0 = true).
  { rewrite forallb_forall in Hw. apply Hw. now apply list_elem_of_In. }
  eapply Forall_impl; [exact Hall|].
  intros t Ht. simpl in Ht. now apply (live_later u t0).
Qed.

(** C9 (amended): when the N > [RATE_LIMIT_MAX] checks of a fresh client
    are served one after another, at non-decreasing clock readings that
    all lie less than [RATE_LIMIT_WINDOW] after the first, exactly
    [RATE_LIMIT_MAX] of them are admitted and the other
    N - [RATE_LIMIT_MAX] are denied. *)
Theorem serialized_checks_admit_exactly_max
    (ip : pystr) (ts : list Q) (log : store) :
  log !! ip = None ->
  nondecreasing ts = true ->
  within_one_window ts = true ->
  RATE_LIMIT_MAX < length ts ->
  length (List.filter is_admit (fst (run_checks (map (pair ip) ts) log)))
    = RATE_LIMIT_MAX /\
  length (List.filter is_deny (fst (run_checks (map (pair ip) ts) log)))
    = length ts - RATE_LIMIT_MAX.
Proof.
  intros Hfresh Hs Hw Hn.
  assert (Hnil : window log ip = []).
  { unfold window. now rewrite Hfresh. }
  destruct (run_checks_no_expiry ip ts log) as [Ha Hd].
  { rewrite Hnil. cbn [app]. now apply within_one_window_live. }
  rewrite Hnil in Ha, Hd. cbn [length] in Ha, Hd.
  rewrite Ha, Hd. split; lia.
Qed.

Lemma serialized_checks_admit_exactly_max_witness :
  length (List.filter is_admit
            (fst (run_checks (map (pair (py "10.0.0.1")) (replicate 130 1%Q))
                             request_log)))
    = RATE_LIMIT_MAX /\
  length (List.filter is_deny
            (fst (run_checks (map (pair (py "10.0.0.1")) (replicate 130 1%Q))
                             request_log)))
    = length (replicate 130 1%Q) - RATE_LIMIT_MAX.
Proof.
  apply serialized_checks_admit_exactly_max.
  - vm_compute. reflexivity.
  - vm_compute. reflexivity.
  - vm_compute. reflexivity.
  - vm_compute. lia.
Defined.

#[local] Set Warnings "-clear-no-such-hyp".

(** * Further properties of the rate limiter *)

(** X1: served one after another with a clock that never runs backwards
    for the client, at most [RATE_LIMIT_MAX] of the client's admitted
    requests lie in the window of [RATE_LIMIT_WINDOW] seconds that ends
    at [now]. *)
Theorem admitted_in_window_bounded
    (calls : list (pystr * Q)) (ip : pystr) (now : Q) :
  nondecreasing (client_times ip calls ++ [now]) = true ->
  length (List.filter (live now)
            (admitted_times ip calls (fst (run_checks calls request_log))))
    <= RATE_LIMIT_MAX.
Proof.
  intros Hs.
  pose proof (run_checks_fresh_hist calls ip now Hs) as (_ & _ & Hlen).
  apply nondecreasing_app_inv in Hs. destruct Hs as (_ & _ & Hle).
  assert (Hall : Forall (fun c => (c <= now)%Q) (client_times ip calls)).
  { eapply Forall_impl; [exact Hle|]. intros c Hc. now inversion Hc. }
  pose proof (run_checks_live calls request_log ip now Hall) as Hlive.
  change (window request_log ip) with (@nil Q) in Hlive. cbn [List.filter app] in Hlive.
  rewrite <- Hlive.
  pose proof (filter_length_le (live now)
                (window (snd (run_checks calls request_log)) ip)).
  lia.
Qed.

Lemma admitted_in_window_bounded_witness :
  length (List.filter (live 50)
            (admitted_times (py "10.0.0.1")
               (replicate 125 (py "10.0.0.1", 1%Q))
               (fst (run_checks (replicate 125 (py "10.0.0.1", 1%Q)) request_log))))
    <= RATE_LIMIT_MAX.
Proof. apply admitted_in_window_bounded. vm_compute. reflexivity. Defined.

Lemma prune_suffix (now : Q) (q : list Q) : exists k, q = k ++ prune now q.
Proof.
  destruct (prune_split now q) as (k & Hk & _). now exists k.
Qed.

Lemma run_checks_suffix (calls : list (pystr * Q)) :
  forall (log : store) (ip : pystr),
    exists k,
      window log ip ++ admitted_times ip calls (fst (run_checks calls log)) =
        k ++ window (snd (run_checks calls log)) ip.
Proof.
  induction calls as [|[c t] calls IH]; intros log ip.
  - exists []. simpl. now rewrite app_nil_r.
  - rewrite run_checks_cons. cbn [fst snd]. simpl admitted_times.
    destruct (IH (snd (check_rate_limit c t log)) ip) as (k & Hk).
    destruct (decide (c = ip)) as [->|Hne].
    + destruct (prune_suffix t (window log ip)) as (k0 & Hk0).
      destruct (check_cases ip t log) as [(Hd & _ & Hw)|(r & Hd & _ & Hw)];
        rewrite Hd; rewrite Hw in Hk.
      * exists (k0 ++ k). rewrite <- app_assoc, <- Hk.
        rewrite Hk0 at 1. now rewrite <- !app_assoc.
      * exists (k0 ++ k). rewrite <- app_assoc, <- Hk.
        rewrite Hk0 at 1. now rewrite <- !app_assoc.
    + rewrite check_window_other in Hk by exact Hne.
      exists k. rewrite <- Hk.
      destruct (fst (check_rate_limit c t log)) as [[|r]|e]; reflexivity.
Qed.

(** X2: starting from the empty store, a client's window always consists
    of the clock readings of its most recent admitted requests, in the
    order they were admitted: it is a suffix of the list of admitted
    readings, and denied requests never appear in it. *)
Theorem window_is_suffix_of_admitted (calls : list (pystr * Q)) (ip : pystr) :
  window (snd (run_checks calls request_log)) ip
    `suffix_of` admitted_times ip calls (fst (run_checks calls request_log)).
Proof.
  destruct (run_checks_suffix calls request_log ip) as (k & Hk).
  exists k. exact Hk.
Qed.

(** X3: on an ordered window the decision only depends on how many
    timestamps are still live: the call is admitted exactly when fewer
    than [RATE_LIMIT_MAX] of them are newer than
    [now - RATE_LIMIT_WINDOW]. *)
Theorem admit_iff_room (ip : pystr) (now : Q) (log : store) :
  nondecreasing (window log ip) = true ->
  (fst (check_rate_limit ip now log) = Ret Admit <->
   length (List.filter (live now) (window log ip)) < RATE_LIMIT_MAX).
Proof.
  intros Hs. rewrite <- (prune_ordered now _ Hs).
  destruct (check_cases ip now log) as [(Hd & Hlt & _)|(r & Hd & Hge & _)];
    rewrite Hd.
  - split; [intros _; exact Hlt | reflexivity].
  - split; [discriminate | lia].
Qed.

Lemma admit_iff_room_witness :
  fst (check_rate_limit (py "10.0.0.1") 3601
         (<[py "10.0.0.1" := replicate 120 1%Q]> request_log)) = Ret Admit <->
  length (List.filter (live 3601)
            (window (<[py "10.0.0.1" := replicate 120 1%Q]> request_log)
                    (py "10.0.0.1"))) < RATE_LIMIT_MAX.
Proof. apply admit_iff_room. vm_compute. reflexivity. Defined.

(** X4: pruning composes: what a call at [now1] removes, a later call at
    [now2 >= now1] would have removed anyway, so pruning twice is
    pruning once at the later time. *)
Theorem prune_prune (now1 now2 : Q) (q : list Q) :
  (now1 <= now2)%Q -> prune now2 (prune now1 q) = prune now2 q.
Proof.
  intros Hle. induction q as [|t q IH]; [reflexivity|].
  simpl prune at 2.
  destruct (Qle_bool t (now1 - RATE_LIMIT_WINDOW)) eqn:E1; [|reflexivity].
  rewrite IH. simpl.
  destruct (Qle_bool t (now2 - RATE_LIMIT_WINDOW)) eqn:E2; [reflexivity|].
  apply Qle_bool_iff in E1. apply Qle_bool_false in E2. lra.
Qed.

Lemma prune_prune_witness :
  prune 3700 (prune 3601 [1%Q; 50%Q; 200%Q]) = prune 3700 [1%Q; 50%Q; 200%Q].
Proof. apply prune_prune. vm_compute. discriminate. Defined.

Lemma prune_later (now1 now2 : Q) (q : list Q) :
  (now1 <= now2)%Q -> prune now2 (prune now1 q) = prune now2 q.
Proof.
  intros Hle. induction q as [|t q IH]; [reflexivity|].
  simpl prune at 2.
  destruct (Qle_bool t (now1 - RATE_LIMIT_WINDOW)) eqn:E1; [|reflexivity].
  rewrite IH. simpl.
  destruct (Qle_bool t (now2 - RATE_LIMIT_WINDOW)) eqn:E2; [reflexivity|].
  apply Qle_bool_iff in E1. apply Qle_bool_false in E2. lra.
Qed.

(** X5: a denied request leaves no trace: any later check of the same
    client (at [now' >= now]) returns the same decision and leaves the
    same store as if the denied request had never been made.  In
    particular, repeating a denied request at the same instant is denied
    again with the same retry-after. *)
Theorem deny_leaves_no_trace (ip : pystr) (now now' r : Q) (log : store) :
  fst (check_rate_limit ip now log) = Ret (Deny r) ->
  (now <= now')%Q ->
  check_rate_limit ip now' (snd (check_rate_limit ip now log)) =
    check_rate_limit ip now' log.
Proof.
  intros Hd Hle.
  destruct (check_cases ip now log) as [(Hd' & _)|(r' & _ & _ & Hw)];
    [congruence|].
  assert (Hs : snd (check_rate_limit ip now log) =
               <[ip := prune now (window log ip)]> log).
  { unfold check_rate_limit in *. cbv zeta in *.
    destruct (RATE_LIMIT_MAX <=? length (prune now (window log ip)))%nat;
      [|discriminate].
    now destruct (prune now (window log ip)). }
  unfold check_rate_limit at 1 3. rewrite Hw, Hs.
  rewrite (prune_later now now' _ Hle). cbv zeta.
  destruct (RATE_LIMIT_MAX <=? length (prune now' (window log ip)))%nat.
  - destruct (prune now' (window log ip)); now rewrite insert_insert_eq.
  - now rewrite insert_insert_eq.
Qed.

Lemma deny_leaves_no_trace_witness :
  check_rate_limit (py "10.0.0.1") 9
    (snd (check_rate_limit (py "10.0.0.1") 5
            (<[py "10.0.0.1" := replicate 120 1%Q]> request_log))) =
  check_rate_limit (py "10.0.0.1") 9
    (<[py "10.0.0.1" := replicate 120 1%Q]> request_log).
Proof.
  apply (deny_leaves_no_trace _ 5 9 3596).
  - vm_compute. reflexivity.
  - vm_compute. discriminate.
Defined.

Lemma deny_then_wait (ip : pystr) (now r w : Q) (log : store) :
  hist_ok now (window log ip) ->
  fst (check_rate_limit ip now log) = Ret (Deny r) ->
  (w < r ->
   exists r',
     fst (check_rate_limit ip (now + w) (snd (check_rate_limit ip now log)))
       = Ret (Deny r') /\ r' == r - w)%Q /\
  (r <= w ->
   fst (check_rate_limit ip (now + w) (snd (check_rate_limit ip now log)))
     = Ret Admit)%Q.
Proof.
  intros (_ & _ & Hlen) Hd.
  destruct (check_deny_inv _ _ _ _ Hd) as (t0 & rest & Hp & ->).
  destruct (check_cases ip now log) as [(Hd' & _)|(r' & _ & Hge & Hw)];
    [congruence|].
  pose proof (prune_length now (window log ip)) as Hpl.
  rewrite Hp in Hge, Hw, Hpl. cbn [length] in Hge, Hpl.
  set (log1 := snd (check_rate_limit ip now log)) in *.
  split.
  - intros Hlt.
    assert (E : Qle_bool t0 (now + w - RATE_LIMIT_WINDOW) = false).
    { destruct (Qle_bool t0 (now + w - RATE_LIMIT_WINDOW)) eqn:E; [|reflexivity].
      apply Qle_bool_iff in E. lra. }
    destruct (check_cases ip (now + w) log1)
      as [(_ & Hlt' & _)|(r2 & Hd2 & _ & _)].
    + rewrite Hw in Hlt'. simpl in Hlt'. rewrite E in Hlt'.
      cbn [length] in Hlt'. lia.
    + exists r2. split; [exact Hd2|].
      destruct (check_deny_inv _ _ _ _ Hd2) as (t1 & rest1 & Hp1 & ->).
      rewrite Hw in Hp1. simpl in Hp1. rewrite E in Hp1.
      injection Hp1 as <- _. ring.
  - intros Hle.
    assert (E : Qle_bool t0 (now + w - RATE_LIMIT_WINDOW) = true).
    { apply Qle_bool_iff. lra. }
    destruct (check_cases ip (now + w) log1)
      as [(Hd2 & _)|(r2 & _ & Hge2 & _)]; [exact Hd2|].
    rewrite Hw in Hge2. simpl in Hge2. rewrite E in Hge2.
    pose proof (prune_length (now + w) rest). lia.
Qed.

(** X6: the retry-after of a denial is exact.  For a client whose clock
    never ran backwards, if the check at [now] is denied with
    [retry_after = r] and the client makes no other request, then a check
    [w] seconds later is still denied (now with [r - w]) for every
    [w < r], and is admitted for every [w >= r]. *)
Theorem retry_after_is_exact
    (calls : list (pystr * Q)) (ip : pystr) (now r w : Q) :
  nondecreasing (client_times ip calls ++ [now]) = true ->
  fst (check_rate_limit ip now (snd (run_checks calls request_log)))
    = Ret (Deny r) ->
  ((w < r)%Q ->
   exists r',
     fst (check_rate_limit ip (now + w)
            (snd (check_rate_limit ip now (snd (run_checks calls request_log)))))
       = Ret (Deny r') /\ r' == r - w) /\
  ((r <= w)%Q ->
   fst (check_rate_limit ip (now + w)
          (snd (check_rate_limit ip now (snd (run_checks calls request_log)))))
     = Ret Admit).
Proof.
  intros Hs Hd.
  apply deny_then_wait; [|exact Hd].
  now apply run_checks_fresh_hist.
Qed.

Lemma retry_after_is_exact_witness :
  fst (check_rate_limit (py "10.0.0.1") (10 + 3590)
         (snd (check_rate_limit (py "10.0.0.1") 10
                 (snd (run_checks (replicate 120 (py "10.0.0.1", 0%Q))
                                  request_log)))))
    = Ret Admit.
Proof.
  refine (proj2 (retry_after_is_exact
                   (replicate 120 (py "10.0.0.1", 0%Q)) _ 10 3590 3590 _ _) _).
  - vm_compute. reflexivity.
  - vm_compute. reflexivity.
  - vm_compute. discriminate.
Defined.

Lemma py_int_truncates (r : Q) :
  (0 <= r)%Q -> (inject_Z (py_int r) <= r /\ r < inject_Z (py_int r) + 1)%Q.
Proof.
  destruct r as [n d]. unfold Qle, Qlt, py_int, inject_Z. simpl.
  intros Hn. rewrite Z.mul_1_r in Hn.
  rewrite Z.quot_div_nonneg by lia.
  pose proof (Z.mul_div_le n (Zpos d) ltac:(lia)).
  pose proof (Z.mul_succ_div_gt n (Zpos d) ltac:(lia)).
  split; nia.
Qed.

(** X7: the [retry_after_seconds] of a 429 is the retry-after rounded
    down: it is never more than the real wait and less than a second
    short of it.  When it is short, a client that waits exactly
    [retry_after_seconds] and tries again is denied once more. *)
Theorem retry_after_seconds_rounds_down
    (MODEL : pystr) (create : completion_args -> pyresult pyval)
    (calls : list (pystr * Q)) (req : request) (now r : Q) :
  nondecreasing (client_times (ip_from_request req) calls ++ [now]) = true ->
  fst (check_rate_limit (ip_from_request req) now
         (snd (run_checks calls request_log))) = Ret (Deny r) ->
  (inject_Z (py_int r) <= r /\ r < inject_Z (py_int r) + 1)%Q /\
  ((inject_Z (py_int r) < r)%Q ->
   exists r',
     fst (check_rate_limit (ip_from_request req) (now + inject_Z (py_int r))
            (log_after (chat MODEL create req now
                          (snd (run_checks calls request_log)))))
       = Ret (Deny r')).
Proof.
  intros Hs Hd.
  pose proof (run_checks_fresh_hist calls _ _ Hs) as Hh.
  assert (H0 : (0 <= r)%Q).
  { destruct (check_deny_inv _ _ _ _ Hd) as (t0 & rest & Hp & ->).
    pose proof (prune_head now
      (window (snd (run_checks calls request_log)) (ip_from_request req))) as Hh0.
    rewrite Hp in Hh0. lra. }
  split; [now apply py_int_truncates|].
  intros Hlt. rewrite chat_log_after.
  destruct (deny_then_wait _ _ _ (inject_Z (py_int r)) _ Hh Hd) as [Hw _].
  destruct (Hw Hlt) as (r' & Hr' & _). now exists r'.
Qed.

Lemma retry_after_seconds_rounds_down_witness :
  (inject_Z (py_int (7199 # 2)) <= 7199 # 2 /\
   7199 # 2 < inject_Z (py_int (7199 # 2)) + 1)%Q.
Proof.
  refine (proj1 (retry_after_seconds_rounds_down
                   (py "gpt-4o-mini") (fun _ => Raise (Exn [] []))
                   (replicate 120 (py "10.0.0.1", 0%Q))
                   (Request None (Some (py "10.0.0.1")) PNone)
                   (1 # 2) (7199 # 2) _ _));
    vm_compute; reflexivity.
Defined.

Lemma check_dom (ip : pystr) (now : Q) (log : store) :
  dom (snd (check_rate_limit ip now log)) = {[ip]} ∪ dom log.
Proof.
  unfold check_rate_limit. cbv zeta.
  destruct (RATE_LIMIT_MAX <=? _)%nat.
  - destruct (prune now (window log ip)); cbn [snd]; apply dom_insert_L.
  - cbn [snd]. apply dom_insert_L.
Qed.

(** X8: entries of the store are created on a client's first call and
    never removed: after any sequence of calls the store has an entry
    for exactly the clients it had before and the clients that called,
    whether they were admitted or denied. *)
Theorem store_keys_only_grow (calls : list (pystr * Q)) (log : store) :
  dom (snd (run_checks calls log)) = list_to_set (map fst calls) ∪ dom log.
Proof.
  revert log. induction calls as [|[c t] calls IH]; intros log.
  - simpl. set_solver.
  - rewrite run_checks_cons. cbn [snd]. rewrite IH, check_dom.
    cbn [map fst list_to_set]. set_solver.
Qed.

(** X9: no call of [check_rate_limit] raises: the [q[0]] of the Deny
    branch is only evaluated on a window of [RATE_LIMIT_MAX] > 0 entries,
    so every call of every sequence, from any store, yields a decision. *)
Theorem check_rate_limit_never_raises (calls : list (pystr * Q)) (log : store) :
  Forall (fun d => is_admit d || is_deny d = true)
         (fst (run_checks calls log)).
Proof.
  revert log. induction calls as [|[c t] calls IH]; intros log.
  - constructor.
  - rewrite run_checks_cons. cbn [fst]. constructor; [|apply IH].
    destruct (check_cases c t log) as [(Hd & _)|(r & Hd & _)];
      rewrite Hd; reflexivity.
Qed.

(** * Further properties of the helpers *)

Lemma lstrip_split (s : pystr) :
  exists l, s = l ++ lstrip s /\ forallb py_isspace l = true.
Proof.
  induction s as [|c s IH]; [now exists []|].
  simpl. destruct (py_isspace c) eqn:E.
  - destruct IH as (l & Hl & Hsp). exists (c :: l). split.
    + simpl. now f_equal.
    + simpl. now rewrite E.
  - now exists [].
Qed.

Lemma lstrip_head (s : pystr) :
  match lstrip s with
  | [] => True
  | c :: _ => py_isspace c = false
  end.
Proof.
  induction s as [|c s IH]; [exact I|].
  simpl. destruct (py_isspace c) eqn:E; [exact IH | exact E].
Qed.

Lemma lstrip_id (s : pystr) :
  match s with [] => True | c :: _ => py_isspace c = false end ->
  lstrip s = s.
Proof. destruct s as [|c s]; [reflexivity|]. simpl. now intros ->. Qed.

Lemma lstrip_nil (s : pystr) :
  lstrip s = [] <-> forallb py_isspace s = true.
Proof.
  induction s as [|c s IH]; [split; reflexivity|].
  simpl. destruct (py_isspace c); [exact IH | split; discriminate].
Qed.

Lemma forallb_rev {A : Type} (f : A -> bool) (l : list A) :
  forallb f (rev l) = forallb f l.
Proof.
  induction l as [|x l IH]; [reflexivity|].
  simpl. rewrite forallb_app, IH. simpl. rewrite andb_true_r. apply andb_comm.
Qed.

(** The shape of [s.strip()]: [s] is whitespace, then the result, then
    whitespace, and the result neither starts nor ends with whitespace. *)
Lemma strip_split (s : pystr) :
  exists l r,
    s = l ++ strip s ++ r /\
    forallb py_isspace l = true /\ forallb py_isspace r = true /\
    match strip s with [] => True | c :: _ => py_isspace c = false end /\
    match rev (strip s) with [] => True | c :: _ => py_isspace c = false end.
Proof.
  destruct (lstrip_split s) as (l & Hl & Hlsp).
  destruct (lstrip_split (rev (lstrip s))) as (k & Hk & Hksp).
  exists l, (rev k). unfold strip, rstrip.
  assert (Ha : lstrip s = rev (lstrip (rev (lstrip s))) ++ rev k).
  { rewrite <- rev_app_distr, <- Hk. now rewrite rev_involutive. }
  split; [rewrite <- Ha; exact Hl|].
  split; [exact Hlsp|]. split; [now rewrite forallb_rev|].
  split.
  - pose proof (lstrip_head s) as Hh. rewrite Ha in Hh.
    destruct (rev (lstrip (rev (lstrip s)))); [exact I | exact Hh].
  - rewrite rev_involutive. apply lstrip_head.
Qed.

Lemma strip_idem (s : pystr) : strip (strip s) = strip s.
Proof.
  destruct (strip_split s) as (l & r & _ & _ & _ & Hh & Ht).
  unfold strip at 1, rstrip.
  rewrite (lstrip_id (strip s)) by exact Hh.
  rewrite (lstrip_id (rev (strip s))) by exact Ht.
  apply rev_involutive.
Qed.

(** X10: [sanitize_text] on a string removes exactly the surrounding
    whitespace: the input is whitespace, the result, whitespace; the
    result neither starts nor ends with a whitespace character; and
    sanitising the result again changes nothing. *)
Theorem sanitize_text_trims (s : pystr) :
  exists l r,
    s = l ++ strip s ++ r /\
    forallb py_isspace l = true /\ forallb py_isspace r = true /\
    match strip s with [] => True | c :: _ => py_isspace c = false end /\
    match rev (strip s) with [] => True | c :: _ => py_isspace c = false end /\
    sanitize_text (PStr s) = Ret (strip s) /\
    sanitize_text (PStr (strip s)) = Ret (strip s).
Proof.
  destruct (strip_split s) as (l & r & Hs & Hl & Hr & Hh & Ht).
  exists l, r. repeat split; try assumption.
  cbn [sanitize_text]. f_equal. unfold strip at 1, rstrip.
  rewrite (lstrip_id (strip s)) by exact Hh.
  rewrite (lstrip_id (rev (strip s))) by exact Ht.
  apply rev_involutive.
Qed.

Lemma strip_nil (s : pystr) :
  strip s = [] <-> forallb py_isspace s = true.
Proof.
  unfold strip, rstrip. split.
  - intros H. apply (f_equal (@rev N)) in H. rewrite rev_involutive in H.
    simpl in H. apply lstrip_nil in H. rewrite forallb_rev in H.
    apply lstrip_nil. apply lstrip_nil in H.
    pose proof (lstrip_head s) as Hh.
    destruct (lstrip s) as [|c t]; [reflexivity|].
    simpl in H. rewrite Hh in H. discriminate.
  - intros H. apply lstrip_nil in H. now rewrite H.
Qed.

Lemma first_field_split (h : pystr) :
  exists rest,
    h = first_field h ++ rest /\
    match rest with [] => True | c :: _ => c = 44%N end /\
    Forall (fun c => c <> 44%N) (first_field h).
Proof.
  induction h as [|c h IH].
  - exists []. repeat split. constructor.
  - simpl. destruct (c =? 44)%N eqn:E.
    + apply N.eqb_eq in E. subst c. exists (44%N :: h).
      repeat split. constructor.
    + apply N.eqb_neq in E. destruct IH as (rest & Hh & Hr & Hall).
      exists rest. split; [simpl; now f_equal|]. split; [exact Hr|].
      now constructor.
Qed.

(** X11: when the request carries an [X-Forwarded-For] header, the
    client identifier is read from the header alone: the header is
    whitespace, the identifier, whitespace, and then either nothing or a
    comma and the rest of the chain.  The identifier contains no comma
    and neither starts nor ends with whitespace (it may be empty). *)
Theorem ip_from_forwarded_header (req : request) (h : pystr) :
  x_forwarded_for req = Some h ->
  exists l r rest,
    h = l ++ ip_from_request req ++ r ++ rest /\
    forallb py_isspace l = true /\ forallb py_isspace r = true /\
    match rest with [] => True | c :: _ => c = 44%N end /\
    Forall (fun c => c <> 44%N) (ip_from_request req) /\
    strip (ip_from_request req) = ip_from_request req.
Proof.
  intros Hh. unfold ip_from_request. rewrite Hh.
  destruct (first_field_split h) as (rest & Hsplit & Hrest & Hall).
  destruct (strip_split (first_field h)) as (l & r & Hs & Hl & Hr & _ & _).
  exists l, r, rest. repeat split; try assumption.
  - rewrite Hsplit at 1. rewrite Hs at 1. now rewrite <- !app_assoc.
  - rewrite Hs in Hall. apply Forall_app in Hall. destruct Hall as [_ Hall].
    apply Forall_app in Hall. now destruct Hall.
  - apply strip_idem.
Qed.

Lemma ip_from_forwarded_header_witness :
  exists l r rest,
    py " 198.51.100.4 , 10.0.0.1" =
      l ++ ip_from_request
             (Request (Some (py " 198.51.100.4 , 10.0.0.1")) (Some (py "10.0.0.9")) PNone)
        ++ r ++ rest /\
    forallb py_isspace l = true /\ forallb py_isspace r = true /\
    match rest with [] => True | c :: _ => c = 44%N end /\
    Forall (fun c => c <> 44%N)
      (ip_from_request
         (Request (Some (py " 198.51.100.4 , 10.0.0.1")) (Some (py "10.0.0.9")) PNone)) /\
    strip (ip_from_request
             (Request (Some (py " 198.51.100.4 , 10.0.0.1")) (Some (py "10.0.0.9")) PNone))
      = ip_from_request
          (Request (Some (py " 198.51.100.4 , 10.0.0.1")) (Some (py "10.0.0.9")) PNone).
Proof. apply ip_from_forwarded_header. vm_compute. reflexivity. Defined.

(** * Further properties of the /chat handler *)

(** The outer [try] never lets an exception through: the relay answers
    200 after one completion call, or 500 after one call and one print. *)
Lemma relay_shape (MODEL : pystr) (create : completion_args -> pyresult pyval)
    (user_message : pystr) :
  exists resp evs,
    relay MODEL create user_message =
      (Ret resp, CallCompletion (completion_request MODEL user_message) :: evs) /\
    ((status resp = 200%Z /\ evs = []) \/
     (status resp = 500%Z /\ exists e, evs = [Printed [py "OpenAI error:"; exn_str e]])).
Proof.
  unfold relay. cbv zeta.
  destruct (create (completion_request MODEL user_message)) as [resp|e];
    cbn [mbind pyresult_bind].
  2:{ eexists _, _. split; [reflexivity|]. right. split; [reflexivity|]. now exists e. }
  destruct (reply_text resp) as [text|e]; cbn [mbind pyresult_bind].
  2:{ eexists _, _. split; [reflexivity|]. right. split; [reflexivity|]. now exists e. }
  unfold respond, jsonify.
  destruct (json_serializable (PDict [(py "reply", text)]));
    cbn [mbind pyresult_bind mret pyresult_ret].
  - eexists _, _. split; [reflexivity|]. left. split; reflexivity.
  - eexists _, _. split; [reflexivity|]. right. split; [reflexivity|].
    eexists. reflexivity.
Qed.

Lemma is_substring_nil_r (p : pystr) :
  p <> [] -> is_substring p [] = false.
Proof. destruct p; [contradiction | reflexivity]. Qed.

Lemma py_message_nonempty : py "message" <> [].
Proof. discriminate. Qed.

(** X12: which requests make the handler fail with an uncaught
    exception.  The handler raises exactly when the request was admitted
    and its parsed body is [true], a non-zero number, a list or string
    containing ["message"], or an object whose [message] is not a string;
    it then has not called the completion service.  In every other case
    it returns a response with status 200, 400, 429 or 500. *)
Theorem chat_raises_exactly_on_crashing_bodies
    (MODEL : pystr) (create : completion_args -> pyresult pyval)
    (req : request) (now : Q) (log : store) :
  if is_admit (fst (check_rate_limit (ip_from_request req) now log))
     && crashing_body (get_json req)
  then exists e,
         result (chat MODEL create req now log) = Raise e /\
         trace (chat MODEL create req now log) = []
  else exists resp,
         result (chat MODEL create req now log) = Ret resp /\
         In (status resp) [200; 400; 429; 500]%Z.
Proof.
  destruct (check_cases (ip_from_request req) now log)
    as [(Hd & _)|(r & Hd & _)].
  2:{ rewrite (chat_deny _ _ _ _ _ _ Hd), Hd. cbn [is_admit andb result].
      eexists. split; [reflexivity|]. cbn [status In]. tauto. }
  rewrite (chat_admit _ _ _ _ _ Hd), Hd. cbn [is_admit andb]. cbv zeta.
  destruct (get_json req) as [|b|z|x|s|items|kvs|attrs].
  - eexists. split; [reflexivity|]. cbn [status In]. tauto.
  - destruct b.
    + eexists. split; reflexivity.
    + eexists. split; [reflexivity|]. cbn [status In]. tauto.
  - unfold lacks_message, crashing_body. cbn [truthy].
    destruct (negb (z =? 0)%Z); cbn [negb py_contains mbind pyresult_bind].
    + eexists. split; reflexivity.
    + eexists. split; [reflexivity|]. cbn [status In]. tauto.
  - unfold lacks_message, crashing_body. cbn [truthy].
    destruct (negb (Qeq_bool x 0)); cbn [negb py_contains mbind pyresult_bind].
    + eexists. split; reflexivity.
    + eexists. split; [reflexivity|]. cbn [status In]. tauto.
  - unfold lacks_message, crashing_body. cbn [truthy].
    destruct (pystr_eqb s []) eqn:Es.
    + apply bool_decide_eq_true in Es. subst s.
      rewrite (is_substring_nil_r _ py_message_nonempty).
      eexists. split; [reflexivity|]. cbn [status In]. tauto.
    + cbn [negb py_contains mbind pyresult_bind mret pyresult_ret].
      destruct (is_substring (py "message") s); cbn [negb].
      * eexists. split; reflexivity.
      * eexists. split; [reflexivity|]. cbn [status In]. tauto.
  - unfold lacks_message, crashing_body. cbn [truthy].
    destruct items as [|i items].
    + eexists. split; [reflexivity|]. cbn [status In]. tauto.
    + cbn [negb py_contains mbind pyresult_bind mret pyresult_ret].
      destruct (existsb (str_equals (py "message")) (i :: items)); cbn [negb].
      * eexists. split; reflexivity.
      * eexists. split; [reflexivity|]. cbn [status In]. tauto.
  - rewrite lacks_message_dict. unfold crashing_body. cbn [py_get].
    destruct (assoc (py "message") kvs) as [[|b|z|x|s|items|kvs'|attrs]|];
      cbn [default mbind pyresult_bind sanitize_text option_rect id];
      try (eexists; split; reflexivity);
      try (eexists; split; [reflexivity|]; cbn [status In]; tauto).
    destruct (negb (truthy (PStr (strip s)))).
    + eexists. split; [reflexivity|]. cbn [status In]. tauto.
    + destruct (relay_shape MODEL create (strip s))
        as (resp & evs & Hr & [[Hst _]|[Hst _]]);
        rewrite Hr; exists resp; (split; [reflexivity|]);
        rewrite Hst; cbn [In]; tauto.
  - eexists. split; reflexivity.
Qed.

Lemma relay_calls_once (MODEL : pystr) (create : completion_args -> pyresult pyval)
    (user_message : pystr) (r : pyresult response) (log : store) :
  calls_made (Outcome r log (snd (relay MODEL create user_message))) =
    [completion_request MODEL user_message].
Proof.
  destruct (relay_shape MODEL create user_message)
    as (resp & evs & Hr & [[_ ->]|[_ (e & ->)]]); rewrite Hr; reflexivity.
Qed.

(** X13: one request costs at most one completion call, and only a
    request that was admitted and whose body is an object with a
    non-blank string [message] reaches the service; the text it sends is
    that message, trimmed. *)
Theorem completion_called_at_most_once
    (MODEL : pystr) (create : completion_args -> pyresult pyval)
    (req : request) (now : Q) (log : store) :
  calls_made (chat MODEL create req now log) = [] \/
  exists user_message,
    calls_made (chat MODEL create req now log) =
      [completion_request MODEL user_message] /\
    fst (check_rate_limit (ip_from_request req) now log) = Ret Admit /\
    message_of (get_json req) = Some user_message /\
    user_message <> [] /\
    strip user_message = user_message.
Proof.
  destruct (check_cases (ip_from_request req) now log)
    as [(Hd & _)|(r & Hd & _)].
  2:{ left. now rewrite (chat_deny _ _ _ _ _ _ Hd). }
  rewrite (chat_admit _ _ _ _ _ Hd). cbv zeta.
  destruct (get_json req) as [|b|z|x|s|items|kvs|attrs];
    try (left; destruct (lacks_message _) as [[|]|e]; reflexivity).
  rewrite lacks_message_dict. unfold message_of. cbn [py_get].
  destruct (assoc (py "message") kvs) as [[|b|z|x|s|items|kvs'|attrs]|];
    cbn [default mbind pyresult_bind sanitize_text option_rect id];
    try (left; reflexivity).
  destruct (truthy (PStr (strip s))) eqn:Ht; cbn [negb]; [|left; reflexivity].
  right. exists (strip s). rewrite relay_calls_once.
  repeat split; try assumption.
  - intros Hnil. rewrite Hnil in Ht. discriminate.
  - apply strip_idem.
Qed.

(** X14: the success path. For an admitted request with a non-blank
    message, when the service returns a response whose
    [choices[0].message.content] can be read and serialised, the handler
    answers 200 with that content as [reply] (whatever it is, even
    [None]); it has made the one call and printed nothing. *)
Theorem completion_reply_is_passed_through
    (MODEL : pystr) (create : completion_args -> pyresult pyval)
    (req : request) (now : Q) (log : store) (user_message : pystr)
    (resp content : pyval) :
  fst (check_rate_limit (ip_from_request req) now log) = Ret Admit ->
  well_formed (get_json req) = true ->
  message_of (get_json req) = Some user_message ->
  create (completion_request MODEL user_message) = Ret resp ->
  extract_content resp = Ret content ->
  json_serializable content = true ->
  sends (chat MODEL create req now log) (PDict [(py "reply", content)]) 200 /\
  trace (chat MODEL create req now log) =
    [CallCompletion (completion_request MODEL user_message)].
Proof.
  intros Hadm Hwf Hm Hc Hex Hj.
  destruct (chat_well_formed MODEL create req now log Hadm Hwf)
    as (um & Hm' & Hr & Ht).
  rewrite Hm in Hm'. injection Hm' as <-.
  assert (Hrt : reply_text resp = Ret content).
  { unfold reply_text. now rewrite Hex. }
  rewrite (relay_return _ _ _ _ _ Hc Hrt Hj) in Hr, Ht.
  unfold sends. now rewrite Hr, Ht.
Qed.

Lemma completion_reply_is_passed_through_witness :
  sends (chat (py "gpt-4o-mini")
              (fun _ => Ret (PObj [(py "choices",
                   PList [PObj [(py "message",
                                 PObj [(py "content", PStr (py "Namaste"))])]])]))
              (Request None (Some (py "10.0.0.1"))
                       (PDict [(py "message", PStr (py "hi"))]))
              0 request_log)
        (PDict [(py "reply", PStr (py "Namaste"))]) 200.
Proof.
  refine (proj1 (completion_reply_is_passed_through _ _ _ _ _ (py "hi")
    (PObj [(py "choices",
            PList [PObj [(py "message", PObj [(py "content", PStr (py "Namaste"))])]])])
    (PStr (py "Namaste")) _ _ _ _ _ _));
    vm_compute; reflexivity.
Defined.

(** X15: the rate-limit state a request leaves behind depends only on
    its client identifier and the clock: the body, the model and the
    outcome of the completion call (reply, failure, uncaught exception)
    have no influence on the store. *)
Theorem store_ignores_body_and_completion
    (MODEL MODEL' : pystr) (create create' : completion_args -> pyresult pyval)
    (req req' : request) (now : Q) (log : store) :
  ip_from_request req = ip_from_request req' ->
  log_after (chat MODEL create req now log) =
    log_after (chat MODEL' create' req' now log).
Proof. intros Hip. rewrite !chat_log_after. now rewrite Hip. Qed.

Lemma store_ignores_body_and_completion_witness :
  log_after (chat (py "gpt-4o-mini") (fun _ => Raise (Exn [] []))
               (Request (Some (py "10.0.0.1, 10.0.0.7")) None (PInt 5))
               3 request_log) =
  log_after (chat (py "gpt-4o") (fun _ => Ret PNone)
               (Request None (Some (py "10.0.0.1"))
                        (PDict [(py "message", PStr (py "hi"))]))
               3 request_log).
Proof. apply store_ignores_body_and_completion. vm_compute. reflexivity. Defined.

(** * Requests served in sequence *)

Section ServeProperties.

Variable MODEL : pystr.
Variable create : completion_args -> pyresult pyval.

Lemma serve_cons (req : request) (now : Q) (rest : list (request * Q))
    (log : store) :
  serve MODEL create ((req, now) :: rest) log =
    (chat MODEL create req now log
       :: fst (serve MODEL create rest
                 (snd (check_rate_limit (ip_from_request req) now log))),
     snd (serve MODEL create rest
            (snd (check_rate_limit (ip_from_request req) now log)))).
Proof.
  simpl. rewrite chat_log_after.
  now destruct (serve MODEL create rest _).
Qed.

(** The handler touches the store through [check_rate_limit] only. *)
Lemma serve_store (reqs : list (request * Q)) :
  forall log : store,
    snd (serve MODEL create reqs log) = snd (run_checks (checks_of reqs) log).
Proof.
  induction reqs as [|[req now] reqs IH]; intros log; [reflexivity|].
  rewrite serve_cons. cbn [snd checks_of map fst].
  rewrite run_checks_cons. cbn [snd]. apply IH.
Qed.

Lemma calls_made_admitted (req : request) (now : Q) (log : store) :
  calls_made (chat MODEL create req now log) <> [] ->
  fst (check_rate_limit (ip_from_request req) now log) = Ret Admit.
Proof.
  intros Hc.
  destruct (check_cases (ip_from_request req) now log)
    as [(Hd & _)|(r & Hd & _)]; [exact Hd|].
  rewrite (chat_deny _ _ _ _ _ _ Hd) in Hc. now contradiction Hc.
Qed.

Lemma filter_cons_le (f : Q -> bool) (t : Q) (l l' : list Q) :
  length (List.filter f l) <= length (List.filter f l') ->
  length (List.filter f l) <= length (List.filter f (t :: l')).
Proof. simpl. destruct (f t); simpl; lia. Qed.

(** Completion calls are a selection of the admitted requests. *)
Lemma completions_le_admitted (f : Q -> bool) (ip : pystr)
    (reqs : list (request * Q)) :
  forall log : store,
    length (List.filter f
              (completion_times ip reqs (fst (serve MODEL create reqs log))))
    <= length (List.filter f
                 (admitted_times ip (checks_of reqs)
                    (fst (run_checks (checks_of reqs) log)))).
Proof.
  induction reqs as [|[req now] reqs IH]; intros log; [simpl; lia|].
  rewrite serve_cons. cbn [fst checks_of map snd].
  rewrite run_checks_cons. cbn [fst].
  specialize (IH (snd (check_rate_limit (ip_from_request req) now log))).
  fold (checks_of reqs).
  cbn [completion_times admitted_times].
  destruct (calls_made (chat MODEL create req now log)) as [|a l] eqn:Hc.
  - destruct (fst (check_rate_limit (ip_from_request req) now log))
      as [[|r]|e]; try exact IH.
    destruct (decide (ip_from_request req = ip)); [|exact IH].
    now apply filter_cons_le.
  - rewrite (calls_made_admitted req now log) by (rewrite Hc; discriminate).
    destruct (decide (ip_from_request req = ip)); [|exact IH].
    simpl. destruct (f now); simpl; lia.
Qed.

End ServeProperties.

(** X16: what the limiter buys.  When requests are served one after
    another and the client's clock never runs backwards, the completion
    service is called for at most [RATE_LIMIT_MAX] of that client's
    requests in the window of [RATE_LIMIT_WINDOW] seconds ending at
    [now], whatever the bodies and whatever the service answers. *)
Theorem completion_calls_in_window_bounded
    (MODEL : pystr) (create : completion_args -> pyresult pyval)
    (reqs : list (request * Q)) (ip : pystr) (now : Q) :
  nondecreasing (client_times ip (checks_of reqs) ++ [now]) = true ->
  length (List.filter (live now)
            (completion_times ip reqs
               (fst (serve MODEL create reqs request_log))))
    <= RATE_LIMIT_MAX.
Proof.
  intros Hs.
  pose proof (completions_le_admitted MODEL create (live now) ip reqs
                request_log) as Hca.
  pose proof (run_checks_fresh_hist (checks_of reqs) ip now Hs)
    as (_ & _ & Hlen).
  apply nondecreasing_app_inv in Hs. destruct Hs as (_ & _ & Hle).
  assert (Hall : Forall (fun c => (c <= now)%Q)
                        (client_times ip (checks_of reqs))).
  { eapply Forall_impl; [exact Hle|]. intros c Hc. now inversion Hc. }
  pose proof (run_checks_live (checks_of reqs) request_log ip now Hall) as Hlive.
  change (window request_log ip) with (@nil Q) in Hlive.
  cbn [List.filter app] in Hlive.
  pose proof (filter_length_le (live now)
                (window (snd (run_checks (checks_of reqs) request_log)) ip)) as Hf.
  rewrite Hlive in Hf. lia.
Qed.

Lemma completion_calls_in_window_bounded_witness :
  length (List.filter (live 9)
            (completion_times (py "10.0.0.1")
               (replicate 125 (Request None (Some (py "10.0.0.1"))
                                 (PDict [(py "message", PStr (py "hi"))]), 2%Q))
               (fst (serve (py "gpt-4o-mini") (fun _ => Ret PNone)
                       (replicate 125 (Request None (Some (py "10.0.0.1"))
                                         (PDict [(py "message", PStr (py "hi"))]), 2%Q))
                       request_log))))
    <= RATE_LIMIT_MAX.
Proof. apply completion_calls_in_window_bounded. vm_compute. reflexivity. Defined.

(** * The exact content of a window *)

Lemma filter_all_true {A : Type} (f : A -> bool) (l : list A) :
  Forall (fun x => f x = true) l -> List.filter f l = l.
Proof.
  induction l as [|x l IH]; intros Hall; [reflexivity|].
  inversion Hall as [|? ? Hx Hl]; subst. simpl. rewrite Hx. f_equal. now apply IH.
Qed.

(** X17: the sliding window, exactly.  With a clock that never runs
    backwards for the client, right after its call at [now] the client's
    window is the list of clock readings of its admitted requests
    (this one included, if admitted) that are newer than
    [now - RATE_LIMIT_WINDOW], in admission order: nothing else is kept
    and nothing live is lost. *)
Theorem window_is_live_admitted
    (calls : list (pystr * Q)) (ip : pystr) (now : Q) :
  nondecreasing (client_times ip (calls ++ [(ip, now)])) = true ->
  window (snd (run_checks (calls ++ [(ip, now)]) request_log)) ip =
    List.filter (live now)
      (admitted_times ip (calls ++ [(ip, now)])
         (fst (run_checks (calls ++ [(ip, now)]) request_log))).
Proof.
  intros Hs.
  assert (Hall : Forall (fun c => (c <= now)%Q)
                        (client_times ip (calls ++ [(ip, now)]))).
  { rewrite client_times_app in *. simpl in *.
    destruct (decide (ip = ip)) as [_|Hne]; [|contradiction].
    apply nondecreasing_app_inv in Hs. destruct Hs as (_ & _ & Hle).
    apply Forall_app. split.
    - eapply Forall_impl; [exact Hle|]. intros c Hc. now inversion Hc.
    - repeat constructor. apply Qle_refl. }
  pose proof (run_checks_live _ request_log ip now Hall) as Hlive.
  change (window request_log ip) with (@nil Q) in Hlive.
  cbn [List.filter app] in Hlive. rewrite <- Hlive.
  symmetry. apply filter_all_true.
  rewrite client_times_app in Hs. simpl in Hs.
  destruct (decide (ip = ip)) as [_|Hne]; [|contradiction].
  rewrite run_checks_app. cbn [snd]. rewrite run_checks_cons. cbn [snd].
  simpl run_checks. cbn [snd].
  destruct (check_step_inv ip now (snd (run_checks calls request_log)))
    as [(Hok & _ & _) _].
  { now apply run_checks_fresh_hist. }
  eapply Forall_impl; [exact Hok|].
  intros t Ht. simpl in Ht. now apply live_true.
Qed.

Lemma window_is_live_admitted_witness :
  window (snd (run_checks ([(py "10.0.0.1", 1%Q); (py "10.0.0.2", 2%Q);
                            (py "10.0.0.1", 5%Q)] ++ [(py "10.0.0.1", 3602%Q)])
                          request_log)) (py "10.0.0.1") =
    List.filter (live 3602)
      (admitted_times (py "10.0.0.1")
         ([(py "10.0.0.1", 1%Q); (py "10.0.0.2", 2%Q);
           (py "10.0.0.1", 5%Q)] ++ [(py "10.0.0.1", 3602%Q)])
         (fst (run_checks ([(py "10.0.0.1", 1%Q); (py "10.0.0.2", 2%Q);
                            (py "10.0.0.1", 5%Q)] ++ [(py "10.0.0.1", 3602%Q)])
                          request_log))).
Proof. apply window_is_live_admitted. vm_compute. reflexivity. Defined.

(** * The two 400 answers *)

Ltac answer_differs H :=
  unfold sends in H; cbn [result] in H; vm_compute in H; discriminate H.

(** X18: which admitted requests get which 400.  The answer
    "Provide JSON body with 'message' field." is sent exactly when the
    parsed body is missing or falsy, or is an object, list or string that
    does not contain ["message"]; the answer "Empty message." exactly
    when the body is an object whose [message] is a string made of
    whitespace only (the empty string included). *)
Theorem invalid_request_exactly
    (MODEL : pystr) (create : completion_args -> pyresult pyval)
    (req : request) (now : Q) (log : store) :
  fst (check_rate_limit (ip_from_request req) now log) = Ret Admit ->
  (sends (chat MODEL create req now log)
         (invalid_request "Provide JSON body with 'message' field.") 400
   <-> missing_message (get_json req) = true) /\
  (sends (chat MODEL create req now log) (invalid_request "Empty message.") 400
   <-> blank_message (get_json req) = true).
Proof.
  intros Hd. rewrite (chat_admit _ _ _ _ _ Hd). cbv zeta.
  destruct (get_json req) as [|b|z|x|s|items|kvs|attrs].
  - split; split; intros H; try reflexivity; try discriminate H; answer_differs H.
  - destruct b; split; split; intros H; try reflexivity; try discriminate H;
      answer_differs H.
  - unfold lacks_message, missing_message, blank_message. cbn [truthy].
    destruct (negb (z =? 0)%Z); cbn [negb py_contains mbind pyresult_bind];
      split; split; intros H; try reflexivity; try discriminate H;
      answer_differs H.
  - unfold lacks_message, missing_message, blank_message. cbn [truthy].
    destruct (negb (Qeq_bool x 0)); cbn [negb py_contains mbind pyresult_bind];
      split; split; intros H; try reflexivity; try discriminate H;
      answer_differs H.
  - unfold lacks_message, missing_message, blank_message. cbn [truthy].
    destruct (pystr_eqb s []) eqn:Es.
    + apply bool_decide_eq_true in Es. subst s.
      rewrite (is_substring_nil_r _ py_message_nonempty).
      split; split; intros H; try reflexivity; try discriminate H;
        answer_differs H.
    + cbn [negb py_contains mbind pyresult_bind mret pyresult_ret].
      destruct (is_substring (py "message") s); cbn [negb];
        split; split; intros H; try reflexivity; try discriminate H;
        answer_differs H.
  - unfold lacks_message, missing_message, blank_message. cbn [truthy].
    destruct items as [|i items].
    + split; split; intros H; try reflexivity; try discriminate H;
        answer_differs H.
    + cbn [negb py_contains mbind pyresult_bind mret pyresult_ret].
      destruct (existsb (str_equals (py "message")) (i :: items)); cbn [negb];
        split; split; intros H; try reflexivity; try discriminate H;
        answer_differs H.
  - rewrite lacks_message_dict. unfold missing_message, blank_message.
    cbn [py_get].
    destruct (assoc (py "message") kvs) as [[|b|z|x|s|items|kvs'|attrs]|];
      cbn [default mbind pyresult_bind sanitize_text option_rect id];
      try (split; split; intros H; try reflexivity; try discriminate H;
           answer_differs H).
    destruct (truthy (PStr (strip s))) eqn:Ht; cbn [negb].
    + assert (Hnb : forallb py_isspace s = false).
      { destruct (forallb py_isspace s) eqn:E; [|reflexivity].
        apply strip_nil in E. rewrite E in Ht. discriminate. }
      rewrite Hnb.
      destruct (relay_shape MODEL create (strip s))
        as (resp & evs & Hr & Hst).
      rewrite Hr. unfold sends. cbn [result fst].
      split; split; intros H; try discriminate H;
        injection H as ->; cbn [status] in Hst;
        destruct Hst as [[Hst _]|[Hst _]]; discriminate Hst.
    + apply truthy_str in Ht. apply strip_nil in Ht. rewrite Ht.
      split; split; intros H; try reflexivity; try discriminate H;
        answer_differs H.
  - split; split; intros H; try reflexivity; try discriminate H;
      answer_differs H.
Qed.

Lemma invalid_request_exactly_witness :
  sends (chat (py "gpt-4o-mini") (fun _ => Ret PNone)
              (Request None (Some (py "10.0.0.1"))
                       (PList [PStr (py "hello")]))
              0 request_log)
        (invalid_request "Provide JSON body with 'message' field.") 400
  <-> missing_message (PList [PStr (py "hello")]) = true.
Proof.
  refine (proj1 (invalid_request_exactly _ _
    (Request None (Some (py "10.0.0.1")) (PList [PStr (py "hello")]))
    0 request_log _)).
  vm_compute. reflexivity.
Defined.

(** * Further properties of concurrent calls *)

Lemma step_thread_ip (t : thread) (log : store) :
  th_ip (fst (step_thread t log)) = th_ip t.
Proof.
  unfold step_thread. destruct t as [ip now p]. cbn [th_pc th_ip th_now].
  destruct p; cbn [fst at_pc th_ip]; try reflexivity.
  - destruct (window log ip) as [|t0 q]; [reflexivity|].
    now destruct (Qle_bool t0 (now - RATE_LIMIT_WINDOW)).
  - now destruct (window log ip).
  - now destruct (RATE_LIMIT_MAX <=? length (window log ip))%nat.
  - now destruct (window log ip).
Qed.

Lemma step_thread_other (t : thread) (log : store) (b : pystr) :
  th_ip t <> b -> snd (step_thread t log) !! b = log !! b.
Proof.
  intros Hne. unfold step_thread. destruct t as [ip now p].
  cbn [th_pc th_ip th_now] in *.
  destruct p; cbn [snd]; try reflexivity.
  - now rewrite lookup_insert_ne.
  - destruct (window log ip) as [|t0 q]; [reflexivity|].
    now destruct (Qle_bool t0 (now - RATE_LIMIT_WINDOW)).
  - destruct (window log ip); [reflexivity|]. cbn [snd].
    now rewrite lookup_insert_ne.
  - now destruct (RATE_LIMIT_MAX <=? length (window log ip))%nat.
  - now destruct (window log ip).
  - now rewrite lookup_insert_ne.
Qed.

Lemma none_of_insert (b : pystr) (threads : list thread) (i : nat) (t : thread) :
  none_of b threads = true ->
  th_ip t <> b ->
  none_of b (<[i := t]> threads) = true.
Proof.
  unfold none_of. revert i. induction threads as [|u threads IH]; intros i Hall Hne.
  - reflexivity.
  - simpl in Hall. apply andb_true_iff in Hall. destruct Hall as [Hu Hall].
    destruct i as [|i]; simpl.
    + rewrite Hall, andb_true_r. apply negb_true_iff.
      unfold pystr_eqb. now apply bool_decide_eq_false.
    + rewrite Hu. simpl. now apply IH.
Qed.

Lemma none_of_lookup (b : pystr) (threads : list thread) (i : nat) (t : thread) :
  none_of b threads = true -> threads !! i = Some t -> th_ip t <> b.
Proof.
  unfold none_of. intros Hall Hi.
  rewrite forallb_forall in Hall.
  specialize (Hall t). apply list_elem_of_lookup_2 in Hi.
  apply list_elem_of_In in Hi. specialize (Hall Hi).
  apply negb_true_iff in Hall. unfold pystr_eqb in Hall.
  now apply bool_decide_eq_false in Hall.
Qed.

Lemma step_config_other (i : nat) (b : pystr) (cfg : config) :
  none_of b (fst cfg) = true ->
  none_of b (fst (step_config i cfg)) = true /\
  snd (step_config i cfg) !! b = snd cfg !! b.
Proof.
  destruct cfg as [threads log]. cbn [fst snd]. intros Hall.
  unfold step_config.
  destruct (threads !! i) as [t|] eqn:Hi; [|now split].
  pose proof (none_of_lookup _ _ _ _ Hall Hi) as Hne.
  pose proof (step_thread_ip t log) as Hip.
  pose proof (step_thread_other t log b Hne) as Hlk.
  destruct (step_thread t log) as [t' log']. cbn [fst snd] in *.
  split; [|exact Hlk].
  apply none_of_insert; [exact Hall | congruence].
Qed.

(** X19: clients do not interfere under any interleaving either: however
    the statements of concurrent calls made for other clients are
    scheduled, the entry of client [b] in the store is left as it was. *)
Theorem interleaving_leaves_other_clients
    (schedule : list nat) (threads : list thread) (log : store) (b : pystr) :
  none_of b threads = true ->
  snd (exec schedule (threads, log)) !! b = log !! b.
Proof.
  unfold exec.
  assert (H : forall cfg : config,
             none_of b (fst cfg) = true ->
             snd (fold_left (fun c i => step_config i c) schedule cfg) !! b
               = snd cfg !! b).
  { induction schedule as [|i schedule IH]; intros cfg Hall; [reflexivity|].
    simpl. destruct (step_config_other i b cfg Hall) as [Hall' Hlk].
    rewrite (IH _ Hall'). exact Hlk. }
  intros Hall. exact (H (threads, log) Hall).
Qed.

Lemma interleaving_leaves_other_clients_witness :
  snd (exec (test_then_append 3)
            (spawn 3 (py "10.0.0.1") 0,
             <[py "10.0.0.2" := [1%Q]]> request_log)) !! (py "10.0.0.2")
    = (<[py "10.0.0.2" := [1%Q]]> request_log) !! (py "10.0.0.2").
Proof. apply interleaving_leaves_other_clients. vm_compute. reflexivity. Defined.

Lemma run_alone_add (a b : nat) (t : thread) (log : store) :
  run_alone (a + b) t log =
    run_alone b (fst (run_alone a t log)) (snd (run_alone a t log)).
Proof.
  revert t log. induction a as [|a IH]; intros t log; [reflexivity|].
  cbn [Nat.add]. rewrite !run_alone_S. apply IH.
Qed.

(** X20: a call that is not interrupted terminates and is
    [check_rate_limit]: run statement by statement on the shared store,
    it returns after at most [2 * len(q) + 4] statements with the
    function's decision and leaves the function's store. *)
Theorem uninterrupted_call_is_check_rate_limit
    (ip : pystr) (now : Q) (log : store) (fuel : nat) :
  2 * length (window log ip) + 4 <= fuel ->
  run_alone fuel (Thread ip now AtLookup) log =
    (Thread ip now (Returned (fst (check_rate_limit ip now log))),
     snd (check_rate_limit ip now log)).
Proof.
  intros Hfuel.
  replace fuel with ((2 * length (window log ip) + 4) +
                     (fuel - (2 * length (window log ip) + 4))) by lia.
  rewrite run_alone_add, run_alone_check. cbn [fst snd].
  apply run_alone_returned.
Qed.

Lemma uninterrupted_call_is_check_rate_limit_witness :
  run_alone 9 (Thread (py "10.0.0.1") 3700 AtLookup)
            (<[py "10.0.0.1" := [1%Q; 200%Q]]> request_log) =
    (Thread (py "10.0.0.1") 3700
       (Returned (fst (check_rate_limit (py "10.0.0.1") 3700
                         (<[py "10.0.0.1" := [1%Q; 200%Q]]> request_log)))),
     snd (check_rate_limit (py "10.0.0.1") 3700
            (<[py "10.0.0.1" := [1%Q; 200%Q]]> request_log))).
Proof. apply uninterrupted_call_is_check_rate_limit. vm_compute. lia. Defined.
